(** * TubeBenderReviews: cost-of-ownership calculator and score fallback

    A shallow embedding of the two calculation paths of the repository:

    - [server/routes.ts], the handler of [POST /api/cost-calculator]
      (request validation with zod, the per-product cost map, the sort,
      the response with [bestValue] and [savings]);
    - [client/src/components/scoring-breakdown.tsx], the [try]/[catch] that
      computes [scoredProduct] with its rating-derived fallback.

    Conventions of the model.

    - Numbers.  A JavaScript number is a [JS.number]: a finite value carried
      as an exact rational, [NaN], or a signed [Infinity].  The arithmetic
      of finite values is exact: binary64 rounding, overflow to [Infinity]
      beyond 1.8e308 and the sign of zero are not represented, and equality
      of finite values is stated with [==] on [Q].  Module [Binary64]
      replays the arithmetic of the cost map in IEEE binary64 on the
      documented examples, where both arithmetics give the same figures.
    - Strings are sequences of code units below 256.
    - Exceptions are explicit: a computation is a [JS.completion], normal
      or thrown.
    - [Array.prototype.sort] is stable; it is written as an insertion sort,
      and [sort_is_the_stable_sort] shows that no other sorted, stable
      arrangement exists.

    The second half of the file covers more of [server/routes.ts]: the
    contact form with its spam patterns and its rate limiter ([Contact]),
    the read of a tube bender by id and the category update ([Catalog]),
    the order in which the routes are registered ([Router]), login and
    first-time setup ([Auth]); and the badge of a breakdown entry of the
    scoring component ([Badge]). *)

From Stdlib Require Import ZArith QArith Qround String Ascii List Bool.
From Stdlib Require Floats.SpecFloat.
From Stdlib Require Import Lia Lqa Permutation Sorted.
Import ListNotations.

Open Scope string_scope.

(* ================================================================== *)
(** * The JavaScript fragment the two sources use *)
(* ================================================================== *)

Module JS.

(** ** Numbers *)

Inductive number : Type :=
| Num (q : Q)
| NaN
| Infinity (negative : bool).

(** The sign of a finite value, as the multiplication by an infinity needs it. *)
Definition Qsign (q : Q) : comparison := (q ?= 0)%Q.

(** [x * y] *)
Definition mul (x y : number) : number :=
  match x, y with
  | NaN, _ | _, NaN => NaN
  | Num a, Num b => Num (a * b)
  | Infinity s, Infinity t => Infinity (xorb s t)
  | Infinity s, Num b | Num b, Infinity s =>
      match Qsign b with
      | Eq => NaN
      | Gt => Infinity s
      | Lt => Infinity (negb s)
      end
  end.

(** [x + y] *)
Definition add (x y : number) : number :=
  match x, y with
  | NaN, _ | _, NaN => NaN
  | Num a, Num b => Num (a + b)
  | Infinity s, Infinity t => if Bool.eqb s t then Infinity s else NaN
  | Infinity s, Num _ | Num _, Infinity s => Infinity s
  end.

(** unary minus *)
Definition neg (x : number) : number :=
  match x with
  | Num a => Num (- a)
  | NaN => NaN
  | Infinity s => Infinity (negb s)
  end.

(** [x - y] *)
Definition sub (x y : number) : number := add x (neg y).

(** [x < y]: false as soon as one side is [NaN]. *)
Definition ltb (x y : number) : bool :=
  match x, y with
  | NaN, _ | _, NaN => false
  | Num a, Num b => match (a ?= b)%Q with Lt => true | _ => false end
  | Infinity s, Infinity t => s && negb t
  | Infinity s, Num _ => s
  | Num _, Infinity t => negb t
  end.

(** [x >= y] *)
Definition geb (x y : number) : bool :=
  match x, y with
  | NaN, _ | _, NaN => false
  | _, _ => negb (ltb x y)
  end.

(** [x <= y] *)
Definition leb (x y : number) : bool := geb y x.

(** [x === y] on numbers: [NaN] differs from everything, itself included. *)
Definition eqb (x y : number) : bool :=
  match x, y with
  | Num a, Num b => Qeq_bool a b
  | Infinity s, Infinity t => Bool.eqb s t
  | _, _ => false
  end.

(** ToBoolean on a number: [NaN] and zero are falsy. *)
Definition truthy (x : number) : bool :=
  match x with
  | Num a => negb (Qeq_bool a 0)
  | NaN => false
  | Infinity _ => true
  end.

(** [x || d] on numbers. *)
Definition or_else (x d : number) : number :=
  if truthy x then x else d.

(** [Math.round]: the nearest integer, a half rounded towards +Infinity. *)
Definition Math_round (x : number) : number :=
  match x with
  | Num a => Num (inject_Z (Qfloor (a + (1 # 2))))
  | _ => x
  end.

(** ** Strings *)

Definition isDigit (c : ascii) : bool :=
  let n := nat_of_ascii c in (48 <=? n)%nat && (n <=? 57)%nat.

Definition digitValue (c : ascii) : Z := Z.of_nat (nat_of_ascii c) - 48.

(** White space and line terminators among the code units below 256
    (TAB, LF, VT, FF, CR, SP, NBSP). *)
Definition isWhiteSpace (c : ascii) : bool :=
  let n := nat_of_ascii c in
  ((9 <=? n)%nat && (n <=? 13)%nat) || (n =? 32)%nat || (n =? 160)%nat.

(** [s.replace(/[^0-9]/g, '')] *)
Fixpoint replace_non_digits (s : string) : string :=
  match s with
  | EmptyString => EmptyString
  | String c r =>
      if isDigit c then String c (replace_non_digits r)
      else replace_non_digits r
  end.

Fixpoint trimStart (s : string) : string :=
  match s with
  | String c r => if isWhiteSpace c then trimStart r else s
  | EmptyString => s
  end.

(** Longest run of decimal digits at the head of [s]: the value read so
    far, the number of digits read, and what follows them. *)
Fixpoint scanDigits (acc : Z) (n : nat) (s : string) : Z * nat * string :=
  match s with
  | String c r =>
      if isDigit c then scanDigits (10 * acc + digitValue c) (S n) r
      else (acc, n, s)
  | EmptyString => (acc, n, s)
  end.

(** The optional ExponentPart: [e] or [E], an optional sign, at least one
    digit.  Without a digit the exponent is not part of the literal. *)
Definition scanExponent (s : string) : Z :=
  match s with
  | String c r =>
      if (Ascii.eqb c "e" || Ascii.eqb c "E")%char then
        let '(sgn, r') :=
          match r with
          | String "-"%char t => (-1, t)
          | String "+"%char t => (1, t)
          | _ => (1, r)
          end in
        let '(v, n, _) := scanDigits 0 0 r' in
        match n with O => 0 | S _ => sgn * v end
      else 0
  | EmptyString => 0
  end%Z.

(** The optional sign in front of a literal. *)
Definition readSign (s : string) : bool * string :=
  match s with
  | String "-"%char r => (true, r)
  | String "+"%char r => (false, r)
  | _ => (false, s)
  end.

(** The optional fraction: a dot and the digits after it. *)
Definition readFraction (s : string) : Z * nat * string :=
  match s with
  | String "."%char r => scanDigits 0 0 r
  | _ => (0%Z, O, s)
  end.

(** [parseFloat]: skip leading white space, then read the longest prefix
    that is a StrDecimalLiteral; [NaN] when there is none. *)
Definition parseFloat (input : string) : number :=
  let '(negative, s1) := readSign (trimStart input) in
  if String.prefix "Infinity" s1 then Infinity negative
  else
    let '(ip, ni, s2) := scanDigits 0 0 s1 in
    let '(fp, nf, s3) := readFraction s2 in
    match (ni + nf)%nat with
    | O => NaN
    | S _ =>
        let mantissa :=
          (inject_Z ip + inject_Z fp / inject_Z (10 ^ Z.of_nat nf))%Q in
        let scaled := (mantissa * Qpower 10 (scanExponent s3))%Q in
        Num (if negative then - scaled else scaled)%Q
    end.

(** ** Arrays *)

(** [a[i]]: [undefined] (here [None]) outside [0 .. length-1]. *)
Definition index {A : Type} (a : list A) (i : Z) : option A :=
  if (i <? 0)%Z then None else nth_error a (Z.to_nat i).

(** [Array.prototype.sort(comparefn)].  The comparator's result [v] is read
    as the specification does: [NaN] counts as [+0]; [v > 0] puts the second
    argument first.  The sort is stable (ECMAScript 2019), which fixes the
    result for a consistent comparator; it is rendered here as a stable
    insertion sort. *)
Definition comesAfter (v : number) : bool := ltb (Num 0) v.

Fixpoint insert {A : Type} (comparefn : A -> A -> number) (x : A) (l : list A)
  : list A :=
  match l with
  | [] => [x]
  | y :: r =>
      if comesAfter (comparefn x y) then y :: insert comparefn x r
      else x :: l
  end.

Fixpoint sort {A : Type} (comparefn : A -> A -> number) (l : list A) : list A :=
  match l with
  | [] => []
  | x :: r => insert comparefn x (sort comparefn r)
  end.

(** ** Exceptions *)

Inductive completion (E A : Type) : Type :=
| Normal (a : A)
| Throw (e : E).
Arguments Normal {E A} a.
Arguments Throw {E A} e.

Definition bind {E A B : Type} (m : completion E A) (k : A -> completion E B)
  : completion E B :=
  match m with
  | Normal a => k a
  | Throw e => Throw e
  end.

(** [try { m } catch (e) { handler e }] *)
Definition try_catch {E A : Type} (m : completion E A)
  (handler : E -> completion E A) : completion E A :=
  match m with
  | Normal a => Normal a
  | Throw e => handler e
  end.

End JS.

Notation "x <- m ;; k" := (JS.bind m (fun x => k))
  (at level 61, m at next level, right associativity).

(* ================================================================== *)
(** * shared/schema.ts: the product record *)
(* ================================================================== *)

Module TubeBender.

Record PriceBand : Type := { min : JS.number; max : JS.number }.

Record ComponentPricing : Type := {
  frame : PriceBand;
  hydraulicRam : PriceBand;
  die : PriceBand;
  standMount : PriceBand
}.

(** A row of the [tube_benders] table ([typeof tubeBenders.$inferSelect]).
    Nullable columns are options; [decimal] columns come back as text. *)
Record t : Type := {
  id : Z;
  name : string;
  brand : string;
  model : string;
  rating : string;
  priceRange : string;
  priceMin : option string;
  priceMax : option string;
  componentPricing : option ComponentPricing;
  maxCapacity : string;
  powerType : string;
  bendAngle : Z;
  countryOfOrigin : string;
  warranty : string;
  materials : list string;
  pros : list string;
  cons : list string;
  description : string;
  imageUrl : option string;
  purchaseUrl : option string;
  category : string;
  isRecommended : option bool;
  totalCostOfOwnership : option string;
  supportQuality : Z;
  buildQuality : Z;
  valueScore : Z;
  features : list string;
  mandrelBender : string;
  wallThicknessCapacity : option string;
  sBendCapability : option bool;
  userReviewRating : option string;
  userReviewCount : option Z;
  importantNotes : option (list string)
}.

End TubeBender.

(* ================================================================== *)
(** * zod: the request schema *)
(* ================================================================== *)

(** A parsed JSON request body.  [JObject] lists the members of the object
    with the binding in force for a key first. *)
#[local] Unset Elimination Schemes.
Inductive json : Type :=
| JNull
| JBool (b : bool)
| JNumber (n : JS.number)
| JString (s : string)
| JArray (items : list json)
| JObject (members : list (string * json)).
#[local] Set Elimination Schemes.

(** [o[key]] on the members of an object; [None] is [undefined]. *)
Fixpoint get (members : list (string * json)) (key : string) : option json :=
  match members with
  | [] => None
  | (k, v) :: r => if String.eqb k key then Some v else get r key
  end.

Module Zod.

Inductive ZodIssueCode : Type := invalid_type | invalid_enum_value.

Record ZodIssue : Type := { code : ZodIssueCode; path : list string }.

(** [z.enum(values)] applied to the value found at [path]. *)
Definition enum (values : list string) (path : list string)
  (input : option json) : list ZodIssue + string :=
  match input with
  | Some (JString s) =>
      if existsb (String.eqb s) values then inr s
      else inl [ {| code := invalid_enum_value; path := path |} ]
  | _ => inl [ {| code := invalid_type; path := path |} ]
  end.

Definition issues {A : Type} (r : list ZodIssue + A) : list ZodIssue :=
  match r with inl l => l | inr _ => [] end.

End Zod.

(* ================================================================== *)
(** * server/routes.ts: POST /api/cost-calculator *)
(* ================================================================== *)

Module Routes.

Import JS.

Inductive error : Type :=
| ZodError (errors : list Zod.ZodIssue)
| TypeError (message : string).

Definition usageValues : list string := ["light"; "medium"; "heavy"].
Definition materialValues : list string :=
  ["mild-steel"; "chromoly"; "aluminum"; "stainless-steel"].
Definition timelineValues : list string :=
  ["1-2-years"; "3-5-years"; "5-plus-years"].

Record CostCalculationRequest : Type := {
  usage : string;
  material : string;
  timeline : string
}.

(** [costCalculationRequestSchema.parse(body)]: every key of the shape is
    checked and the issues of all of them are thrown together. *)
Definition costCalculationRequestSchema_parse (body : json)
  : completion error CostCalculationRequest :=
  match body with
  | JObject members =>
      let u := Zod.enum usageValues ["usage"] (get members "usage") in
      let m := Zod.enum materialValues ["material"] (get members "material") in
      let t := Zod.enum timelineValues ["timeline"] (get members "timeline") in
      match u, m, t with
      | inr u', inr m', inr t' =>
          Normal {| usage := u'; material := m'; timeline := t' |}
      | _, _, _ =>
          Throw (ZodError (Zod.issues u ++ Zod.issues m ++ Zod.issues t))
      end
  | _ => Throw (ZodError [ {| Zod.code := Zod.invalid_type; Zod.path := [] |} ])
  end.

Module Calculation.
Record t : Type := {
  id : Z;
  name : string;
  brand : string;
  initialCost : number;
  maintenanceCost : number;
  supportCost : number;
  downtimeCost : number;
  totalCost : number;
  countryOfOrigin : string;
  supportQuality : Z;
  buildQuality : Z
}.
End Calculation.

Definition usageMultiplier (requestData : CostCalculationRequest) : number :=
  if usage requestData =? "light" then Num 0.5
  else if usage requestData =? "medium" then Num 1
  else Num 1.5.

Definition timelineMultiplier (requestData : CostCalculationRequest) : number :=
  if timeline requestData =? "1-2-years" then Num 1
  else if timeline requestData =? "3-5-years" then Num 2
  else Num 3.

(** The callback of [tubeBenders.map]. *)
Definition calculate (requestData : CostCalculationRequest)
  (bender : TubeBender.t) : Calculation.t :=
  let initialCost :=
    or_else (parseFloat (replace_non_digits (TubeBender.priceRange bender)))
            (Num 1000) in
  let usageMultiplier := usageMultiplier requestData in
  let timelineMultiplier := timelineMultiplier requestData in
  let '(maintenanceCost, supportCost, downtimeCost) :=
    if TubeBender.countryOfOrigin bender =? "USA" then
      (mul (mul (mul initialCost (Num 0.05)) usageMultiplier) timelineMultiplier,
       mul (Num 100) timelineMultiplier,
       mul (mul (Num 50) usageMultiplier) timelineMultiplier)
    else
      (mul (mul (mul initialCost (Num 0.15)) usageMultiplier) timelineMultiplier,
       mul (Num 300) timelineMultiplier,
       mul (mul (Num 200) usageMultiplier) timelineMultiplier) in
  let totalCost :=
    add (add (add initialCost maintenanceCost) supportCost) downtimeCost in
  {| Calculation.id := TubeBender.id bender;
     Calculation.name := TubeBender.name bender;
     Calculation.brand := TubeBender.brand bender;
     Calculation.initialCost := initialCost;
     Calculation.maintenanceCost := maintenanceCost;
     Calculation.supportCost := supportCost;
     Calculation.downtimeCost := downtimeCost;
     Calculation.totalCost := totalCost;
     Calculation.countryOfOrigin := TubeBender.countryOfOrigin bender;
     Calculation.supportQuality := TubeBender.supportQuality bender;
     Calculation.buildQuality := TubeBender.buildQuality bender |}.

(** [(a, b) => a.totalCost - b.totalCost] *)
Definition byTotalCost (a b : Calculation.t) : number :=
  sub (Calculation.totalCost a) (Calculation.totalCost b).

(** [c.totalCost] where [c] may be [undefined]. *)
Definition totalCost_of (c : option Calculation.t) : completion error number :=
  match c with
  | Some c' => Normal (Calculation.totalCost c')
  | None =>
      Throw (TypeError
               "Cannot read properties of undefined (reading 'totalCost')")
  end.

(** The body of a 200 response; an [undefined] [bestValue] is [None]. *)
Record CostResponse : Type := {
  request : CostCalculationRequest;
  calculations : list Calculation.t;
  bestValue : option Calculation.t;
  savings : number
}.

Inductive Response : Type :=
| Status200 (body : CostResponse)
| Status400 (message : string) (errors : list Zod.ZodIssue)
| Status500 (message : string).

(** The [try] block of the handler; [tubeBenders] is what
    [storage.getTubeBenders()] resolves to. *)
Definition cost_calculator_try (body : json) (tubeBenders : list TubeBender.t)
  : completion error CostResponse :=
  requestData <- costCalculationRequestSchema_parse body ;;
  let calculations :=
    sort byTotalCost (map (calculate requestData) tubeBenders) in
  last <- totalCost_of
            (index calculations (Z.of_nat (length calculations) - 1)) ;;
  first <- totalCost_of (index calculations 0) ;;
  Normal {| request := requestData;
            calculations := calculations;
            bestValue := index calculations 0;
            savings := sub last first |}.

(** [app.post("/api/cost-calculator", ...)] *)
Definition cost_calculator (body : json) (tubeBenders : list TubeBender.t)
  : Response :=
  match cost_calculator_try body tubeBenders with
  | Normal r => Status200 r
  | Throw (ZodError errors) => Status400 "Invalid request data" errors
  | Throw _ => Status500 "Failed to calculate costs"
  end.

End Routes.

(* ================================================================== *)
(** * client/src/components/scoring-breakdown.tsx *)
(* ================================================================== *)

Module Scoring.

Import JS.

Record ScoreBreakdownItem : Type := {
  criteria : string;
  points : number;
  maxPoints : number;
  reasoning : string
}.

(** [{ ...product, totalScore, scoreBreakdown }] *)
Record ScoredTubeBender : Type := {
  product : TubeBender.t;
  totalScore : number;
  scoreBreakdown : list ScoreBreakdownItem
}.

Section ScoringBreakdown.

(** What [calculateTubeBenderScore] throws. *)
Variable E : Type.

(** [calculateTubeBenderScore] of [@/lib/scoring-algorithm], a module the
    component imports; it returns a scored product or throws. *)
Variable calculateTubeBenderScore :
  TubeBender.t -> completion E ScoredTubeBender.

(** The fallback of the [catch] block. *)
Definition fallback (product : TubeBender.t) : ScoredTubeBender :=
  let baseScore :=
    Math_round (mul (parseFloat (TubeBender.rating product)) (Num 10)) in
  {| product := product;
     totalScore := baseScore;
     scoreBreakdown :=
       [ {| criteria := "Overall Rating";
            points := baseScore;
            maxPoints := Num 100;
            reasoning :=
              "Based on " ++ TubeBender.rating product ++ "/10 rating" |} ]
  |}.

(** The value of [scoredProduct] after the [try]/[catch]. *)
Definition scoredProduct (product : TubeBender.t)
  : completion E ScoredTubeBender :=
  try_catch (calculateTubeBenderScore product)
            (fun _ => Normal (fallback product)).

End ScoringBreakdown.

End Scoring.

(* ================================================================== *)
(** * The specification's wording of the cost rules *)
(* ================================================================== *)

Module Spec.

(** "strip all non-digit characters" *)
Definition digits (text : string) : list ascii :=
  filter JS.isDigit (list_ascii_of_string text).




Inductive UsageTier : Type := light | medium | heavy.
Inductive TimelineTier : Type := years_1_2 | years_3_5 | years_5_plus.

Definition usageName (u : UsageTier) : string :=
  match u with light => "light" | medium => "medium" | heavy => "heavy" end.

Definition timelineName (t : TimelineTier) : string :=
  match t with
  | years_1_2 => "1-2-years"
  | years_3_5 => "3-5-years"
  | years_5_plus => "5-plus-years"
  end.

(** "light = 0.5, medium = 1.0, heavy = 1.5" *)
Definition usageMultiplier (u : UsageTier) : Q :=
  match u with light => 0.5 | medium => 1 | heavy => 1.5 end.

(** "1-2 years = 1, 3-5 years = 2, 5+ years = 3" *)
Definition timelineMultiplier (t : TimelineTier) : Q :=
  match t with years_1_2 => 1 | years_3_5 => 2 | years_5_plus => 3 end.




End Spec.

(* ================================================================== *)
(** * The arithmetic of the cost map in IEEE binary64 *)
(* ================================================================== *)

Module Binary64.

Import Floats.SpecFloat.

Definition prec : Z := 53.
Definition emax : Z := 1024.

(** The double nearest to an integer. *)
Definition ofZ (n : Z) : spec_float := binary_normalize prec emax n 0 false.

Definition mul : spec_float -> spec_float -> spec_float := SFmul prec emax.
Definition add : spec_float -> spec_float -> spec_float := SFadd prec emax.

(** The double of the decimal literal [m / 10^k], for [m] below 2^53 and
    [k] at most 22 (both operands exact, the quotient correctly rounded). *)
Definition literal (m k : Z) : spec_float :=
  SFdiv prec emax (ofZ m) (ofZ (10 ^ k)).

(** Maintenance, support, downtime and total as the callback of
    [tubeBenders.map] computes them. *)
Definition replay (isUSA : bool)
  (initialCost usageMultiplier timelineMultiplier : spec_float)
  : spec_float * spec_float * spec_float * spec_float :=
  let '(maintenanceCost, supportCost, downtimeCost) :=
    if isUSA then
      (mul (mul (mul initialCost (literal 5 2)) usageMultiplier)
           timelineMultiplier,
       mul (ofZ 100) timelineMultiplier,
       mul (mul (ofZ 50) usageMultiplier) timelineMultiplier)
    else
      (mul (mul (mul initialCost (literal 15 2)) usageMultiplier)
           timelineMultiplier,
       mul (ofZ 300) timelineMultiplier,
       mul (mul (ofZ 200) usageMultiplier) timelineMultiplier) in
  (maintenanceCost, supportCost, downtimeCost,
   add (add (add initialCost maintenanceCost) supportCost) downtimeCost).

End Binary64.

(* ================================================================== *)
(** * Sample data *)
(* ================================================================== *)

Module Sample.

Definition bender (id : Z) (name rating priceRange countryOfOrigin : string)
  (supportQuality buildQuality : Z) : TubeBender.t :=
  {| TubeBender.id := id;
     TubeBender.name := name;
     TubeBender.brand := name;
     TubeBender.model := "M1";
     TubeBender.rating := rating;
     TubeBender.priceRange := priceRange;
     TubeBender.priceMin := None;
     TubeBender.priceMax := None;
     TubeBender.componentPricing := None;
     TubeBender.maxCapacity := "2 in";
     TubeBender.powerType := "Manual";
     TubeBender.bendAngle := 180;
     TubeBender.countryOfOrigin := countryOfOrigin;
     TubeBender.warranty := "1 year";
     TubeBender.materials := ["Mild Steel"];
     TubeBender.pros := [];
     TubeBender.cons := [];
     TubeBender.description := "";
     TubeBender.imageUrl := None;
     TubeBender.purchaseUrl := None;
     TubeBender.category := "budget";
     TubeBender.isRecommended := Some false;
     TubeBender.totalCostOfOwnership := None;
     TubeBender.supportQuality := supportQuality;
     TubeBender.buildQuality := buildQuality;
     TubeBender.valueScore := 7;
     TubeBender.features := [];
     TubeBender.mandrelBender := "No";
     TubeBender.wallThicknessCapacity := None;
     TubeBender.sBendCapability := Some false;
     TubeBender.userReviewRating := None;
     TubeBender.userReviewCount := None;
     TubeBender.importantNotes := Some [] |}.

Definition usa : TubeBender.t := bender 1 "Alpha" "9.2" "$1000+" "USA" 9 9.
Definition china : TubeBender.t := bender 2 "Beta" "7.5" "$1000+" "China" 5 6.
Definition cheap : TubeBender.t := bender 3 "Gamma" "N/A" "$250" "Taiwan" 4 4.
Definition unpriced : TubeBender.t :=
  bender 4 "Delta" "8" "Call for price" "USA" 8 8.

(** Same price range and origin as [usa], other fields differ. *)
Definition usa_twin : TubeBender.t :=
  bender 5 "Epsilon" "3" "$1000+" "USA" 2 3.

Definition catalog : list TubeBender.t := [china; usa; cheap; unpriced].

(** A record whose legacy rating lies above the 0-10 scale. *)
Definition overrated : TubeBender.t := bender 6 "Zeta" "11" "$500" "USA" 5 5.

(** A primary scoring function that fails on every product. *)
Definition alwaysThrows (product : TubeBender.t)
  : JS.completion unit Scoring.ScoredTubeBender :=
  JS.Throw tt.

Definition body (usage material timeline : string) : json :=
  JObject [("usage", JString usage); ("material", JString material);
           ("timeline", JString timeline)].

End Sample.

(* ================================================================== *)
(** * server/routes.ts: POST /api/contact *)
(* ================================================================== *)

(** The form posts its text fields as strings and [timeSpent] as a number;
    a field is a value of that type or is absent ([None], [undefined]).
    [Date.now()] is an integer count of milliseconds. *)

Module Contact.

Import JS.

(** ** The three spam patterns *)

(** [\w] *)
Definition isWordChar (c : ascii) : bool :=
  let n := nat_of_ascii c in
  ((48 <=? n) && (n <=? 57) || (65 <=? n) && (n <=? 90) || (n =? 95)
   || (97 <=? n) && (n <=? 122))%nat.

(** Letters [A-Z] to lower case.  Under the [i] flag two code units below
    256 of which one is an ASCII letter match when they agree after this. *)
Definition toLowerCase (c : ascii) : ascii :=
  let n := nat_of_ascii c in
  if ((65 <=? n) && (n <=? 90))%nat then ascii_of_nat (n + 32) else c.

Definition eqbIgnoreCase (a b : ascii) : bool :=
  Ascii.eqb (toLowerCase a) (toLowerCase b).

(** [s] starts with [word], case ignored: what follows [word] in [s]. *)
Fixpoint afterPrefixIgnoreCase (word s : string) : option string :=
  match word, s with
  | EmptyString, _ => Some s
  | String a word', String b s' =>
      if eqbIgnoreCase a b then afterPrefixIgnoreCase word' s' else None
  | String _ _, EmptyString => None
  end.

Definition spamWords : list string :=
  ["viagra"; "cialis"; "pharmacy"; "casino"; "poker"; "loan"; "credit";
   "bitcoin"; "crypto"].

(** [\b] after a word character: the input ends or a non-word character
    follows. *)
Definition atWordEnd (rest : string) : bool :=
  match rest with
  | EmptyString => true
  | String c _ => negb (isWordChar c)
  end.

(** [(viagra|...|crypto)\b] matches at the head of [s]. *)
Definition spamWordAt (s : string) : bool :=
  existsb (fun word =>
             match afterPrefixIgnoreCase word s with
             | Some rest => atWordEnd rest
             | None => false
             end)
          spamWords.

(** [/\b(viagra|...|crypto)\b/i.test(s)], where [afterWord] tells whether
    the character before [s] is a word character. *)
Fixpoint testSpamWord (afterWord : bool) (s : string) : bool :=
  match s with
  | EmptyString => false
  | String c r =>
      (negb afterWord && spamWordAt s) || testSpamWord (isWordChar c) r
  end.

(** [hay] contains [needle]. *)
Fixpoint includes (needle hay : string) : bool :=
  String.prefix needle hay
  || match hay with
     | EmptyString => false
     | String _ r => includes needle r
     end.

(** [/http[s]?:\/\//g.test(s)] *)
Definition testUrl (s : string) : bool :=
  includes "http://" s || includes "https://" s.

Definition isLineTerminator (c : ascii) : bool :=
  let n := nat_of_ascii c in ((n =? 10) || (n =? 13))%nat.

(** The number of copies of [c] at the head of [s]. *)
Fixpoint runLength (c : ascii) (s : string) : nat :=
  match s with
  | EmptyString => O
  | String d r => if Ascii.eqb c d then S (runLength c r) else O
  end.

(** [/(.)\1{10,}/g.test(s)]: a character other than a line terminator
    followed by ten copies of itself or more. *)
Fixpoint testRepeat (s : string) : bool :=
  match s with
  | EmptyString => false
  | String c r =>
      (negb (isLineTerminator c) && (10 <=? runLength c r)%nat)
      || testRepeat r
  end.

(** The loop over [spamPatterns]; the regular expressions are created
    anew by each request, so every [test] starts at index 0. *)
Definition prohibited (allText : string) : bool :=
  testSpamWord false allText || testUrl allText || testRepeat allText.

(** ** The request *)

Record Body : Type := {
  name : option string;
  email : option string;
  subject : option string;
  message : option string;
  type : option string;
  honeypot : option string;
  mathAnswer : option string;
  timeSpent : option number;
  fingerprint : option string
}.

Record Request : Type := {
  body : Body;
  ip : option string;
  remoteAddress : option string
}.

Inductive Response : Type :=
| Error (status : Z) (error : string)
| Success (message : string).

(** ToBoolean of a string or [undefined]. *)
Definition truthy (v : option string) : bool :=
  match v with
  | Some (String _ _) => true
  | _ => false
  end.

(** [timeSpent < 10000]; [undefined] converts to [NaN]. *)
Definition tooQuick (timeSpent : option number) : bool :=
  match timeSpent with
  | Some t => ltb t (Num 10000)
  | None => ltb NaN (Num 10000)
  end.

(** The checks made before the rate limiter, in their order: the error
    answered, or [None] when all pass. *)
Definition contentError (b : Body) : option Response :=
  if truthy (honeypot b) then Some (Error 400 "Bot detection triggered")
  else if tooQuick (timeSpent b) then
    Some (Error 400 "Form submitted too quickly")
  else if negb (truthy (name b)) || negb (truthy (email b))
          || negb (truthy (subject b)) || negb (truthy (message b)) then
    Some (Error 400 "Missing required fields")
  else
    match name b, email b, subject b, message b with
    | Some name, Some email, Some subject, Some message =>
        if (String.length message <? 20)%nat then
          Some (Error 400 "Message too short")
        else
          let allText :=
            name ++ " " ++ email ++ " " ++ subject ++ " " ++ message in
          if prohibited allText then
            Some (Error 400 "Message contains prohibited content")
          else None
    | _, _, _, _ => Some (Error 400 "Missing required fields")
    end.

(** ** The rate limiter *)

(** The [Map] in [global.rateLimiter]: keys in insertion order, each with
    the times of the submissions kept for it. *)
Definition RateLimiter : Type := list (string * list Z).

Fixpoint Map_get (m : RateLimiter) (key : string) : option (list Z) :=
  match m with
  | [] => None
  | (k, v) :: r => if String.eqb k key then Some v else Map_get r key
  end.

Fixpoint Map_set (m : RateLimiter) (key : string) (value : list Z)
  : RateLimiter :=
  match m with
  | [] => [(key, value)]
  | (k, v) :: r =>
      if String.eqb k key then (k, value) :: r
      else (k, v) :: Map_set r key value
  end.

(** [req.ip || req.connection.remoteAddress || 'unknown'] *)
Definition clientIP (req : Request) : string :=
  match ip req with
  | Some (String c r) => String c r
  | _ =>
      match remoteAddress req with
      | Some (String c r) => String c r
      | _ => "unknown"
      end
  end.

Definition rateLimitKey (req : Request) : string := "contact_" ++ clientIP req.

(** The second half of the handler; [limiter] is [global.rateLimiter],
    [None] while it has not been created. *)
Definition rateLimit (now : Z) (limiter : option RateLimiter) (req : Request)
  : Response * option RateLimiter :=
  let rateLimiter := match limiter with Some m => m | None => [] end in
  let clientHistory :=
    match Map_get rateLimiter (rateLimitKey req) with
    | Some h => h
    | None => []
    end in
  let recentSubmissions :=
    filter (fun time => now - time <? 3600000)%Z clientHistory in
  if (3 <=? length recentSubmissions)%nat then
    (Error 429 "Too many submissions. Please try again later.",
     Some rateLimiter)
  else
    (Success "Contact form submitted successfully",
     Some (Map_set rateLimiter (rateLimitKey req)
                   (recentSubmissions ++ [now]))).

(** [app.post("/api/contact", ...)], with [now] the value of [Date.now()]. *)
Definition contact (now : Z) (limiter : option RateLimiter) (req : Request)
  : Response * option RateLimiter :=
  match contentError (body req) with
  | Some error => (error, limiter)
  | None => rateLimit now limiter req
  end.

(** The submissions kept for a key. *)
Definition history (limiter : option RateLimiter) (key : string) : list Z :=
  match limiter with
  | Some m => match Map_get m key with Some h => h | None => [] end
  | None => []
  end.

(** A sequence of requests, each with the time it is handled at. *)
Fixpoint serve (limiter : option RateLimiter) (requests : list (Z * Request))
  : list Response * option RateLimiter :=
  match requests with
  | [] => ([], limiter)
  | (now, req) :: rest =>
      let '(response, limiter') := contact now limiter req in
      let '(responses, final) := serve limiter' rest in
      (response :: responses, final)
  end.

End Contact.

(* ================================================================== *)
(** * Further vocabulary for the cost calculator *)
(* ================================================================== *)

(** The value found under a key is a string of the key's enumeration. *)
Definition validField (values : list string) (input : option json) : bool :=
  match input with
  | Some (JString s) => existsb (String.eqb s) values
  | _ => false
  end.

(** The keys of the request schema, in schema order, whose value the
    schema refuses. *)
Definition invalidKeys (members : list (string * json)) : list string :=
  map fst
      (filter (fun kv => negb (validField (snd kv) (get members (fst kv))))
              (("usage", Routes.usageValues)
                 :: ("material", Routes.materialValues)
                 :: ("timeline", Routes.timelineValues) :: nil)).

(** Strings without any decimal digit. *)
Fixpoint digitFree (s : string) : bool :=
  match s with
  | EmptyString => true
  | String c r => negb (JS.isDigit c) && digitFree r
  end.


(* ================================================================== *)
(** * Further vocabulary for the contact form *)
(* ================================================================== *)

(** No key holds more than three submissions. *)
Definition bounded (limiter : option Contact.RateLimiter) : Prop :=
  forall key, (length (Contact.history limiter key) <= 3)%nat.

(** [n] copies of [c]. *)
Fixpoint repeatChar (c : ascii) (n : nat) : string :=
  match n with
  | O => EmptyString
  | S m => String c (repeatChar c m)
  end.

(** Whether the last character of [s] is a word character; [before] when
    [s] is empty. *)
Fixpoint endsInWordChar (before : bool) (s : string) : bool :=
  match s with
  | EmptyString => before
  | String c r => endsInWordChar (Contact.isWordChar c) r
  end.

(** The same letters, case ignored. *)
Fixpoint equalIgnoreCase (a b : string) : bool :=
  match a, b with
  | EmptyString, EmptyString => true
  | String x a', String y b' =>
      Contact.eqbIgnoreCase x y && equalIgnoreCase a' b'
  | _, _ => false
  end.

Module ContactSample.

Definition body (message : string) : Contact.Body :=
  {| Contact.name := Some "Ada";
     Contact.email := Some "ada@example.org";
     Contact.subject := Some "Die sizes";
     Contact.message := Some message;
     Contact.type := Some "question";
     Contact.honeypot := Some EmptyString;
     Contact.mathAnswer := Some "7";
     Contact.timeSpent := Some (JS.Num 15000);
     Contact.fingerprint := None |}.

Definition request (message : string) : Contact.Request :=
  {| Contact.body := body message;
     Contact.ip := Some "203.0.113.7";
     Contact.remoteAddress := None |}.

Definition question : Contact.Request :=
  request "Which die set fits 1.75 inch tube?".

End ContactSample.

(* ================================================================== *)
(** * More of the JavaScript library *)
(* ================================================================== *)

Module JSLib.

Import JS.

(** The global [isNaN] on a number. *)
Definition isNaN (x : number) : bool :=
  match x with NaN => true | _ => false end.

(** [s.trimEnd()] *)
Fixpoint trimEnd (s : string) : string :=
  match s with
  | EmptyString => EmptyString
  | String c r =>
      match trimEnd r with
      | EmptyString =>
          if isWhiteSpace c then EmptyString else String c EmptyString
      | String d r' => String c (String d r')
      end
  end.

(** [s.trim()] *)
Definition trim (s : string) : string := trimEnd (trimStart s).

Definition isHexDigit (c : ascii) : bool :=
  let n := nat_of_ascii c in
  ((48 <=? n) && (n <=? 57) || (65 <=? n) && (n <=? 70)
   || (97 <=? n) && (n <=? 102))%nat.

Definition hexValue (c : ascii) : Z :=
  let n := Z.of_nat (nat_of_ascii c) in
  if (n <=? 57)%Z then n - 48 else if (n <=? 70)%Z then n - 55 else n - 87.

Fixpoint scanHex (acc : Z) (n : nat) (s : string) : Z * nat * string :=
  match s with
  | String c r =>
      if isHexDigit c then scanHex (16 * acc + hexValue c) (S n) r
      else (acc, n, s)
  | EmptyString => (acc, n, s)
  end.

(** The input after a [0x] or [0X] prefix, when it has one. *)
Definition afterHexPrefix (s : string) : option string :=
  match s with
  | String "0"%char (String "x"%char r) => Some r
  | String "0"%char (String "X"%char r) => Some r
  | _ => None
  end.

(** [parseInt(input)] without a radix: leading white space is skipped, a
    sign is read, a [0x] prefix selects radix 16, otherwise radix 10; the
    longest run of digits is the value, [NaN] when there is no digit. *)
Definition parseInt (input : string) : number :=
  let '(negative, s) := readSign (trimStart input) in
  let '(value, digits, _) :=
    match afterHexPrefix s with
    | Some r => scanHex 0 0 r
    | None => scanDigits 0 0 s
    end in
  match digits with
  | O => NaN
  | S _ => Num (inject_Z (if negative then - value else value))
  end.

End JSLib.

(* ================================================================== *)
(** * server/routes.ts: the tube bender routes *)
(* ================================================================== *)

(** [./storage] is not part of the sources: a handler takes what the
    storage call resolves to as a function, and returns the calls it makes
    next to its response.  A storage call that rejects, which the [catch]
    of a handler answers with 500, is not represented. *)

Module Catalog.

Import JS JSLib.

Inductive StorageCall : Type :=
| GetTubeBender (id : number)
| UpdateTubeBenderCategory (id : number) (category : string).

Inductive Response : Type :=
| Ok (row : TubeBender.t)
| Failure (status : Z) (message : string).

Section Storage.

Variable getTubeBender : number -> option TubeBender.t.
Variable updateTubeBenderCategory : number -> string -> option TubeBender.t.

(** [app.get("/api/tube-benders/:id", ...)] *)
Definition getTubeBenderById (idParam : string)
  : Response * list StorageCall :=
  let id := parseInt idParam in
  if isNaN id then (Failure 400 "Invalid tube bender ID", [])
  else
    match getTubeBender id with
    | None => (Failure 404 "Tube bender not found", [GetTubeBender id])
    | Some tubeBender => (Ok tubeBender, [GetTubeBender id])
    end.

(** [app.patch("/api/tube-benders/:id/category", ...)]; [body] is
    [req.body], and reading [category] off [null] throws, which the
    [catch] answers with 500. *)
Definition updateCategory (idParam : string) (body : json)
  : Response * list StorageCall :=
  let id := parseInt idParam in
  if isNaN id then (Failure 400 "Invalid tube bender ID", [])
  else
    match body with
    | JNull => (Failure 500 "Failed to update tube bender category", [])
    | _ =>
        let category :=
          match body with
          | JObject members => get members "category"
          | _ => None
          end in
        match category with
        | Some (JString (String c r)) =>
            let trimmed := trim (String c r) in
            match updateTubeBenderCategory id trimmed with
            | None =>
                (Failure 404 "Tube bender not found",
                 [UpdateTubeBenderCategory id trimmed])
            | Some updated =>
                (Ok updated, [UpdateTubeBenderCategory id trimmed])
            end
        | _ => (Failure 400 "Category is required and must be a string", [])
        end
    end.

End Storage.

End Catalog.

(* ================================================================== *)
(** * server/routes.ts: the routes in the order they are registered *)
(* ================================================================== *)

(** Express hands a request to the first registered route whose method
    and path match; none of the handlers passes the request on.  A path is
    given by its segments; a literal segment matches without regard to
    case, a parameter matches any segment that is not empty. *)

Module Router.

Inductive Method : Type := GET | HEAD | POST | PATCH | PUT | DELETE.

Inductive Segment : Type :=
| Lit (text : string)
| Param (name : string).

Inductive Route : Type :=
| AuthLogin | AuthSetup | AuthMe | AuthLogout
| TubeBenders | TubeBenderById | TubeBendersRecommended
| TubeBendersByCategory | TubeBendersByBrand | UpdateTubeBender
| AdminEmail | Health | HealthDb | CostCalculator | Comparisons
| UpdateCategory | ContactForm.

(** [app.get] also answers HEAD requests. *)
Definition methodMatches (registered requested : Method) : bool :=
  match registered, requested with
  | GET, GET | GET, HEAD | POST, POST | PATCH, PATCH => true
  | _, _ => false
  end.

Definition segmentMatches (pattern : Segment) (segment : string) : bool :=
  match pattern with
  | Lit text => equalIgnoreCase text segment
  | Param _ => negb (segment =? EmptyString)
  end.

Fixpoint pathMatches (pattern : list Segment) (path : list string) : bool :=
  match pattern, path with
  | [], [] => true
  | p :: pattern', s :: path' =>
      segmentMatches p s && pathMatches pattern' path'
  | _, _ => false
  end.

Definition routes : list (Method * list Segment * Route) :=
  [ (POST, [Lit "api"; Lit "auth"; Lit "login"], AuthLogin);
    (POST, [Lit "api"; Lit "auth"; Lit "setup"], AuthSetup);
    (GET, [Lit "api"; Lit "auth"; Lit "me"], AuthMe);
    (POST, [Lit "api"; Lit "auth"; Lit "logout"], AuthLogout);
    (GET, [Lit "api"; Lit "tube-benders"], TubeBenders);
    (GET, [Lit "api"; Lit "tube-benders"; Param "id"], TubeBenderById);
    (GET, [Lit "api"; Lit "tube-benders"; Lit "recommended"],
     TubeBendersRecommended);
    (GET, [Lit "api"; Lit "tube-benders"; Lit "category"; Param "category"],
     TubeBendersByCategory);
    (GET, [Lit "api"; Lit "tube-benders"; Lit "brand"; Param "brand"],
     TubeBendersByBrand);
    (PATCH, [Lit "api"; Lit "tube-benders"; Param "id"], UpdateTubeBender);
    (PATCH, [Lit "api"; Lit "admin"; Lit "email"], AdminEmail);
    (GET, [Lit "api"; Lit "health"], Health);
    (GET, [Lit "api"; Lit "health"; Lit "db"], HealthDb);
    (POST, [Lit "api"; Lit "cost-calculator"], CostCalculator);
    (GET, [Lit "api"; Lit "comparisons"], Comparisons);
    (PATCH, [Lit "api"; Lit "tube-benders"; Param "id"; Lit "category"],
     UpdateCategory);
    (POST, [Lit "api"; Lit "contact"], ContactForm) ].

Fixpoint firstMatch (table : list (Method * list Segment * Route))
  (method : Method) (path : list string) : option Route :=
  match table with
  | [] => None
  | (m, pattern, route) :: rest =>
      if methodMatches m method && pathMatches pattern path then Some route
      else firstMatch rest method path
  end.

Definition dispatch (method : Method) (path : list string) : option Route :=
  firstMatch routes method path.

End Router.

(* ================================================================== *)
(** * Further vocabulary for the tube bender routes *)
(* ================================================================== *)


Definition startsWithWhiteSpace (s : string) : bool :=
  match s with
  | EmptyString => false
  | String c _ => JS.isWhiteSpace c
  end.

Fixpoint endsWithWhiteSpace (s : string) : bool :=
  match s with
  | EmptyString => false
  | String c EmptyString => JS.isWhiteSpace c
  | String _ r => endsWithWhiteSpace r
  end.

(** Strings made of white space only. *)
Fixpoint blank (s : string) : bool :=
  match s with
  | EmptyString => true
  | String c r => JS.isWhiteSpace c && blank r
  end.

(* ================================================================== *)
(** * server/routes.ts: login and first-time setup *)
(* ================================================================== *)

(** [./auth] and [./storage] are not part of the sources.  What their
    functions return is taken as a parameter of each handler, and a handler
    returns the storage calls it makes next to its response.  A call that
    throws or rejects, which the [catch] of a handler answers with 500, is
    not represented.  The user name and the password of a login are the
    strings the request validation lets through. *)

Module Auth.

(** A row of [admin_users]. *)
Record AdminUser : Type := {
  id : Z;
  username : string;
  passwordHash : string;
  email : string;
  role : string;
  isActive : bool;
  lastLogin : option string;
  createdAt : string;
  updatedAt : string;
  loginAttempts : Z;
  lockedUntil : option string
}.

(** The object handed to [storage.createAdmin]. *)
Record NewAdmin : Type := {
  newUsername : string;
  newEmail : string;
  newPasswordHash : string;
  newRole : string;
  newIsActive : bool;
  newLastLogin : option string;
  newCreatedAt : string;
  newUpdatedAt : string;
  newLoginAttempts : Z;
  newLockedUntil : option string
}.

Inductive StorageCall : Type :=
| GetAdminByUsername (username : string)
| UpdateAdminLoginAttempts (id attempts : Z) (lockedUntil : option string)
| UpdateAdminLastLogin (id : Z) (lastLogin : string)
| GetAllAdmins
| CreateAdmin (row : NewAdmin).

Inductive Response (User : Type) : Type :=
| LoginSuccessful (token : string) (user : User)
| AdminCreated (user : User)
| Failure (status : Z) (error : string).
Arguments LoginSuccessful {User} token user.
Arguments AdminCreated {User} user.
Arguments Failure {User} status error.

Section Handlers.

(** What [sanitizeUser] returns. *)
Variable User : Type.
Variable sanitizeUser : AdminUser -> User.

Variable getAdminByUsername : string -> option AdminUser.
Variable isAccountLocked : AdminUser -> bool.
Variable verifyPassword : string -> string -> bool.
Variable shouldLockAccount : Z -> bool.
Variable getLockoutExpiry : string.
Variable generateToken : AdminUser -> string.

(** [app.post("/api/auth/login", ...)]; [now] is
    [new Date().toISOString()]. *)
Definition login (now : string) (username password : string)
  : Response User * list StorageCall :=
  match getAdminByUsername username with
  | None =>
      (Failure 401 "Invalid username or password.",
       [GetAdminByUsername username])
  | Some user =>
      if isAccountLocked user then
        (Failure 423
           "Account is temporarily locked due to multiple failed login attempts. Please try again later.",
         [GetAdminByUsername username])
      else if negb (isActive user) then
        (Failure 401 "Account is disabled. Please contact administrator.",
         [GetAdminByUsername username])
      else if negb (verifyPassword password (passwordHash user)) then
        let newAttempts := (loginAttempts user + 1)%Z in
        let shouldLock := shouldLockAccount newAttempts in
        let lockedUntil :=
          if shouldLock then Some getLockoutExpiry else None in
        (Failure 401
           (if shouldLock then
              "Account has been temporarily locked due to multiple failed login attempts."
            else "Invalid username or password."),
         [GetAdminByUsername username;
          UpdateAdminLoginAttempts (id user) newAttempts lockedUntil])
      else
        (LoginSuccessful (generateToken user) (sanitizeUser user),
         [GetAdminByUsername username; UpdateAdminLastLogin (id user) now])
  end.

Variable hashPassword : string -> string.
Variable createAdmin : NewAdmin -> AdminUser.

(** [app.post("/api/auth/setup", ...)]; [existingAdmins] is what
    [storage.getAllAdmins()] resolves to, a text field of the body is a
    string or absent, [createdAt] and [updatedAt] are the two readings of
    the clock. *)
Definition setup (existingAdmins : list AdminUser)
  (username email password : option string) (createdAt updatedAt : string)
  : Response User * list StorageCall :=
  if (0 <? Z.of_nat (length existingAdmins))%Z then
    (Failure 409 "Admin user already exists. Setup is not allowed.",
     [GetAllAdmins])
  else
    match username, email, password with
    | Some (String u us), Some (String e es), Some (String p ps) =>
        if (String.length (String p ps) <? 8)%nat then
          (Failure 400 "Password must be at least 8 characters long.",
           [GetAllAdmins])
        else
          let row :=
            {| newUsername := String u us;
               newEmail := String e es;
               newPasswordHash := hashPassword (String p ps);
               newRole := "admin";
               newIsActive := true;
               newLastLogin := None;
               newCreatedAt := createdAt;
               newUpdatedAt := updatedAt;
               newLoginAttempts := 0;
               newLockedUntil := None |} in
          (AdminCreated (sanitizeUser (createAdmin row)),
           [GetAllAdmins; CreateAdmin row])
    | _, _, _ =>
        (Failure 400 "Username, email, and password are required.",
         [GetAllAdmins])
    end.

End Handlers.

End Auth.

(* ================================================================== *)
(** * scoring-breakdown.tsx: the badge of a breakdown entry *)
(* ================================================================== *)

Module Badge.

Import JS.

(** [item.points > item.maxPoints * 0.7 ? "default" : "secondary"] *)
Definition variant (item : Scoring.ScoreBreakdownItem) : string :=
  if ltb (mul (Scoring.maxPoints item) (Num 0.7)) (Scoring.points item)
  then "default" else "secondary".

End Badge.

Module AuthSample.

Definition ada : Auth.AdminUser :=
  {| Auth.id := 1; Auth.username := "ada"; Auth.passwordHash := "h:secret-one";
     Auth.email := "ada@example.org"; Auth.role := "admin";
     Auth.isActive := true; Auth.lastLogin := None;
     Auth.createdAt := "2025-07-01T00:00:00.000Z";
     Auth.updatedAt := "2025-07-01T00:00:00.000Z";
     Auth.loginAttempts := 4; Auth.lockedUntil := None |}.

Definition getAdminByUsername (username : string) : option Auth.AdminUser :=
  if username =? "ada" then Some ada else None.

Definition verifyPassword (password hash : string) : bool :=
  ("h:" ++ password) =? hash.

Definition hashPassword (password : string) : string := "h:" ++ password.

Definition createAdmin (row : Auth.NewAdmin) : Auth.AdminUser :=
  {| Auth.id := 1; Auth.username := Auth.newUsername row;
     Auth.passwordHash := Auth.newPasswordHash row;
     Auth.email := Auth.newEmail row; Auth.role := Auth.newRole row;
     Auth.isActive := Auth.newIsActive row;
     Auth.lastLogin := Auth.newLastLogin row;
     Auth.createdAt := Auth.newCreatedAt row;
     Auth.updatedAt := Auth.newUpdatedAt row;
     Auth.loginAttempts := Auth.newLoginAttempts row;
     Auth.lockedUntil := Auth.newLockedUntil row |}.

(** A login handler over these parts: accounts lock at five attempts. *)
Definition login (locked : bool)
  : string -> string -> string
    -> Auth.Response string * list Auth.StorageCall :=
  Auth.login string Auth.username getAdminByUsername (fun _ => locked)
             verifyPassword (fun attempts => (5 <=? attempts)%Z)
             "2025-07-01T00:30:00.000Z" (fun user => "token-for-" ++ Auth.username user).

Definition setup
  : list Auth.AdminUser -> option string -> option string -> option string
    -> string -> string -> Auth.Response string * list Auth.StorageCall :=
  Auth.setup string Auth.username hashPassword createAdmin.

End AuthSample.

(* ================================================================== *)
(** * Vocabulary of the statements *)
(* ================================================================== *)



(** [a.totalCost <= b.totalCost] *)
Definition totalLe (a b : Routes.Calculation.t) : Prop :=
  JS.leb (Routes.Calculation.totalCost a) (Routes.Calculation.totalCost b)
  = true.

(** [c.totalCost === v] *)
Definition hasTotal (v : JS.number) (c : Routes.Calculation.t) : bool :=
  JS.eqb (Routes.Calculation.totalCost c) v.

Definition finiteTotal (c : Routes.Calculation.t) : Prop :=
  exists q, Routes.Calculation.totalCost c = JS.Num q.

(** The five cost figures of an entry. *)
Definition figures (c : Routes.Calculation.t)
  : JS.number * JS.number * JS.number * JS.number * JS.number :=
  (Routes.Calculation.initialCost c, Routes.Calculation.maintenanceCost c,
   Routes.Calculation.supportCost c, Routes.Calculation.downtimeCost c,
   Routes.Calculation.totalCost c).

(** The three keys of the request schema with their enumerations. *)
Definition requestShape : list (string * list string) :=
  [("usage", Routes.usageValues); ("material", Routes.materialValues);
   ("timeline", Routes.timelineValues)].

(** The value found under [field] is a member of the enumeration. *)
Definition inEnum (values : list string) (input : option json) : Prop :=
  exists s, input = Some (JString s) /\ In s values.

(** [x] is an integer between [lo] and [hi]. *)
Definition isIntegerIn (lo hi : Z) (x : JS.number) : bool :=
  match x with
  | JS.Num q =>
      Qeq_bool q (inject_Z (Qfloor q))
      && (lo <=? Qfloor q)%Z && (Qfloor q <=? hi)%Z
  | _ => false
  end.

(** What a response says apart from the echoed request. *)
Definition outcome (r : Routes.Response)
  : option (list Routes.Calculation.t * option Routes.Calculation.t
            * JS.number) :=
  match r with
  | Routes.Status200 b =>
      Some (Routes.calculations b, Routes.bestValue b, Routes.savings b)
  | _ => None
  end.

(* ================================================================== *)
(** * parseFloat on the digits of a price range *)
(* ================================================================== *)

Section PriceDigits.

Import JS.














End PriceDigits.

(* ================================================================== *)
(** * The cost figures of one product *)
(* ================================================================== *)

Section CostFigures.

Import JS Routes.

Lemma usageName_valid (u : Spec.UsageTier) :
  In (Spec.usageName u) usageValues.
Proof. destruct u; simpl; tauto. Qed.

Lemma timelineName_valid (t : Spec.TimelineTier) :
  In (Spec.timelineName t) timelineValues.
Proof. destruct t; simpl; tauto. Qed.

Lemma usageValues_tiers (s : string) :
  In s usageValues -> exists u, s = Spec.usageName u.
Proof.
  simpl. intros [H|[H|[H|[]]]]; subst;
    [exists Spec.light | exists Spec.medium | exists Spec.heavy]; reflexivity.
Qed.

Lemma timelineValues_tiers (s : string) :
  In s timelineValues -> exists t, s = Spec.timelineName t.
Proof.
  simpl. intros [H|[H|[H|[]]]]; subst;
    [exists Spec.years_1_2 | exists Spec.years_3_5 | exists Spec.years_5_plus];
    reflexivity.
Qed.








(** The two worked examples of the documentation: "$1000+", medium usage,
    3-5 years, origin "USA" and origin "China". *)
Example documented_example_usa :
  let c := calculate {| usage := "medium"; material := "mild-steel";
                        timeline := "3-5-years" |} Sample.usa in
  eqb (Calculation.initialCost c) (Num 1000) = true
  /\ eqb (Calculation.maintenanceCost c) (Num 100) = true
  /\ eqb (Calculation.supportCost c) (Num 200) = true
  /\ eqb (Calculation.downtimeCost c) (Num 100) = true
  /\ eqb (Calculation.totalCost c) (Num 1400) = true.
Proof. repeat split; reflexivity. Qed.

Example documented_example_china :
  let c := calculate {| usage := "medium"; material := "mild-steel";
                        timeline := "3-5-years" |} Sample.china in
  eqb (Calculation.initialCost c) (Num 1000) = true
  /\ eqb (Calculation.maintenanceCost c) (Num 300) = true
  /\ eqb (Calculation.supportCost c) (Num 600) = true
  /\ eqb (Calculation.downtimeCost c) (Num 400) = true
  /\ eqb (Calculation.totalCost c) (Num 2300) = true.
Proof. repeat split; reflexivity. Qed.

(** The same two examples in binary64: the doubles are the integers. *)
Example documented_example_usa_binary64 :
  Binary64.replay true (Binary64.ofZ 1000) (Binary64.ofZ 1) (Binary64.ofZ 2)
  = (Binary64.ofZ 100, Binary64.ofZ 200, Binary64.ofZ 100, Binary64.ofZ 1400).
Proof. vm_compute. reflexivity. Qed.

Example documented_example_china_binary64 :
  Binary64.replay false (Binary64.ofZ 1000) (Binary64.ofZ 1) (Binary64.ofZ 2)
  = (Binary64.ofZ 300, Binary64.ofZ 600, Binary64.ofZ 400, Binary64.ofZ 2300).
Proof. vm_compute. reflexivity. Qed.

(** Heavy usage over five years and more, as in the comparison of origins:
    1225 + 525 against 1675 + 1800. *)
Example heavy_five_plus_binary64 :
  snd (Binary64.replay true (Binary64.ofZ 1000) (Binary64.literal 15 1)
                       (Binary64.ofZ 3)) = Binary64.ofZ 1750
  /\ snd (Binary64.replay false (Binary64.ofZ 1000) (Binary64.literal 15 1)
                          (Binary64.ofZ 3)) = Binary64.ofZ 3475.
Proof. split; vm_compute; reflexivity. Qed.

End CostFigures.

(* ================================================================== *)
(** * Array.prototype.sort with the comparator of the handler *)
(* ================================================================== *)

Section Sorting.

Import JS Routes.
Local Open Scope Q_scope.

Lemma Qcompare_Lt_iff (p q : Q) :
  match (p ?= q) with Lt => true | _ => false end = true <-> p < q.
Proof.
  rewrite Qlt_alt. destruct (p ?= q); split; congruence.
Qed.

Lemma ltb_Num (p q : Q) : ltb (Num p) (Num q) = true <-> p < q.
Proof. apply Qcompare_Lt_iff. Qed.

Lemma leb_Num (p q : Q) : leb (Num p) (Num q) = true <-> p <= q.
Proof.
  unfold leb, geb. rewrite negb_true_iff, <- not_true_iff_false, ltb_Num.
  split; [apply Qnot_lt_le | apply Qle_not_lt].
Qed.


Lemma comesAfter_sub (p q : Q) :
  comesAfter (sub (Num p) (Num q)) = true <-> q < p.
Proof.
  unfold comesAfter, sub, neg, add. rewrite ltb_Num. split; intros H; lra.
Qed.

Lemma byTotalCost_after (a b : Calculation.t) (p q : Q) :
  Calculation.totalCost a = Num p -> Calculation.totalCost b = Num q ->
  comesAfter (byTotalCost a b) = true <-> q < p.
Proof. unfold byTotalCost. intros -> ->. apply comesAfter_sub. Qed.

(** Two entries with the same total are never swapped. *)
Lemma same_total_not_after (v : number) (a b : Calculation.t) :
  hasTotal v a = true -> hasTotal v b = true ->
  comesAfter (byTotalCost a b) = false.
Proof.
  unfold hasTotal, byTotalCost.
  destruct (Calculation.totalCost a) as [p| |s],
           (Calculation.totalCost b) as [q| |t], v as [w| |u];
    cbn [eqb]; intros Ha Hb; try discriminate Ha; try discriminate Hb.
  - apply Qeq_bool_iff in Ha. apply Qeq_bool_iff in Hb.
    apply not_true_iff_false. rewrite comesAfter_sub. lra.
  - apply Bool.eqb_prop in Ha. apply Bool.eqb_prop in Hb. subst.
    now destruct u.
Qed.

Section Generic.

Context {A : Type} (comparefn : A -> A -> number).

Lemma insert_Permutation (x : A) (l : list A) :
  Permutation (insert comparefn x l) (x :: l).
Proof.
  induction l as [|y r IH]; simpl; [reflexivity|].
  destruct (comesAfter (comparefn x y)); [|reflexivity].
  rewrite IH. apply perm_swap.
Qed.

Lemma sort_Permutation (l : list A) : Permutation (sort comparefn l) l.
Proof.
  induction l as [|x r IH]; simpl; [reflexivity|].
  rewrite insert_Permutation. now constructor.
Qed.


(** Stability, on one key at a time: when [x] never moves past an element
    [y] that [keep] selects together with [x], the selected sub-list is
    untouched. *)
Lemma filter_insert (keep : A -> bool) (x : A) (l : list A) :
  (forall y, keep x = true -> keep y = true ->
             comesAfter (comparefn x y) = false) ->
  filter keep (insert comparefn x l) = filter keep (x :: l).
Proof.
  intros Hkeep. induction l as [|y r IH]; [reflexivity|].
  cbn [insert]. destruct (comesAfter (comparefn x y)) eqn:Hxy;
    [|reflexivity].
  cbn [filter] in *. rewrite IH.
  destruct (keep x) eqn:Hx; [|reflexivity].
  destruct (keep y) eqn:Hy; [|reflexivity].
  rewrite (Hkeep y eq_refl Hy) in Hxy. discriminate.
Qed.

Lemma filter_sort (keep : A -> bool) (l : list A) :
  (forall x y, keep x = true -> keep y = true ->
               comesAfter (comparefn x y) = false) ->
  filter keep (sort comparefn l) = filter keep l.
Proof.
  intros Hkeep. induction l as [|x r IH]; [reflexivity|].
  cbn [sort]. rewrite filter_insert by (intros y; apply Hkeep).
  cbn [filter]. now rewrite IH.
Qed.

End Generic.

Lemma totalLe_trans (a b c : Calculation.t) :
  finiteTotal a -> finiteTotal b -> finiteTotal c ->
  totalLe a b -> totalLe b c -> totalLe a c.
Proof.
  unfold totalLe. intros [p ->] [q ->] [r ->]. rewrite !leb_Num.
  apply Qle_trans.
Qed.

Lemma insert_HdRel (a x : Calculation.t) (l : list Calculation.t) :
  totalLe a x -> HdRel totalLe a l ->
  HdRel totalLe a (insert byTotalCost x l).
Proof.
  intros Hax Hal. destruct l as [|y r]; simpl; [now constructor|].
  destruct (comesAfter (byTotalCost x y)); constructor;
    [now inversion Hal | exact Hax].
Qed.

Lemma insert_Sorted (x : Calculation.t) (l : list Calculation.t) :
  finiteTotal x -> Forall finiteTotal l ->
  Sorted totalLe l -> Sorted totalLe (insert byTotalCost x l).
Proof.
  intros [p Hp] Hfin Hs. induction l as [|y r IH]; simpl.
  - repeat constructor.
  - inversion Hfin as [|? ? [q Hq] Hr]; subst.
    inversion Hs as [|? ? Hsr Hhd]; subst.
    destruct (comesAfter (byTotalCost x y)) eqn:Hxy.
    + constructor; [now apply IH|].
      apply insert_HdRel; [|exact Hhd].
      apply (byTotalCost_after x y p q Hp Hq) in Hxy.
      unfold totalLe. rewrite Hp, Hq. apply leb_Num. lra.
    + constructor; [exact Hs|]. constructor.
      apply not_true_iff_false in Hxy.
      rewrite (byTotalCost_after x y p q Hp Hq) in Hxy.
      unfold totalLe. rewrite Hp, Hq. apply leb_Num. lra.
Qed.

Lemma sort_Sorted (l : list Calculation.t) :
  Forall finiteTotal l -> Sorted totalLe (sort byTotalCost l).
Proof.
  induction l as [|x r IH]; intros Hfin; simpl; [constructor|].
  inversion Hfin as [|? ? Hx Hr]; subst.
  apply insert_Sorted; [exact Hx| |now apply IH].
  eapply Permutation_Forall; [|exact Hr].
  symmetry. apply sort_Permutation.
Qed.

(** In a sorted list of finite totals the head is below every element. *)
Lemma Sorted_head_below (first : Calculation.t) (rest : list Calculation.t) :
  Forall finiteTotal (first :: rest) -> Sorted totalLe (first :: rest) ->
  Forall (totalLe first) (first :: rest).
Proof.
  revert first. induction rest as [|y r IH]; intros first Hfin Hs.
  - inversion Hfin as [|? ? [p Hp] _]; subst.
    repeat constructor. unfold totalLe. rewrite Hp. apply leb_Num. lra.
  - inversion Hfin as [|? ? Hf Hyr]; subst.
    inversion Hs as [|? ? Hsr Hhd]; subst.
    inversion Hhd as [|? ? Hfy]; subst.
    pose proof (IH y Hyr Hsr) as Hy.
    constructor.
    + destruct Hf as [p Hp]. unfold totalLe. rewrite Hp. apply leb_Num. lra.
    + rewrite Forall_forall in *. intros z Hz.
      apply (totalLe_trans first y z).
      * apply Hfin. now left.
      * apply Hyr. now left.
      * apply Hyr. exact Hz.
      * exact Hfy.
      * apply Hy. exact Hz.
Qed.

Lemma hasTotal_refl (c : Calculation.t) :
  finiteTotal c -> hasTotal (Calculation.totalCost c) c = true.
Proof. intros [q Hq]. unfold hasTotal. rewrite Hq. apply Qeq_bool_refl. Qed.

Lemma hasTotal_sym (a b : Calculation.t) :
  hasTotal (Calculation.totalCost a) b = hasTotal (Calculation.totalCost b) a.
Proof.
  unfold hasTotal.
  destruct (Calculation.totalCost a) as [p| |s],
           (Calculation.totalCost b) as [q| |t]; cbn [eqb]; try reflexivity.
  - destruct (Qeq_bool q p) eqn:H1, (Qeq_bool p q) eqn:H2; try reflexivity.
    + apply Qeq_bool_iff in H1. symmetry in H1. apply Qeq_bool_iff in H1.
      congruence.
    + apply Qeq_bool_iff in H2. symmetry in H2. apply Qeq_bool_iff in H2.
      congruence.
  - now destruct s, t.
Qed.

Lemma totalLe_antisym (a b : Calculation.t) :
  finiteTotal a -> finiteTotal b ->
  totalLe a b -> totalLe b a -> hasTotal (Calculation.totalCost a) b = true.
Proof.
  unfold totalLe, hasTotal. intros [p ->] [q ->]. rewrite !leb_Num.
  intros H1 H2. cbn [eqb]. apply Qeq_bool_iff. lra.
Qed.

(** The head of a sorted list is the first entry of its own total in
    every sorted list that selects the same entries total by total. *)
Lemma stable_sorted_same_head (x y : Calculation.t)
  (r1 r2 : list Calculation.t) :
  Forall finiteTotal (x :: r1) -> Forall finiteTotal (y :: r2) ->
  Sorted totalLe (x :: r1) -> Sorted totalLe (y :: r2) ->
  (forall v, filter (hasTotal v) (x :: r1) = filter (hasTotal v) (y :: r2)) ->
  x = y.
Proof.
  intros Hf1 Hf2 Hs1 Hs2 Hsel.
  assert (Hfx : finiteTotal x) by now inversion Hf1.
  assert (Hfy : finiteTotal y) by now inversion Hf2.
  assert (Hxy : hasTotal (Calculation.totalCost x) y = true).
  { destruct (hasTotal (Calculation.totalCost x) y) eqn:Hy; [reflexivity|].
    pose proof (Hsel (Calculation.totalCost x)) as Hx.
    pose proof (Hsel (Calculation.totalCost y)) as Hy'.
    cbn [filter] in Hx, Hy'.
    rewrite (hasTotal_refl x Hfx), Hy in Hx.
    rewrite (hasTotal_refl y Hfy), <- hasTotal_sym, Hy in Hy'.
    assert (Hin2 : In x (y :: r2)).
    { right. eapply proj1. apply filter_In. rewrite <- Hx. now left. }
    assert (Hin1 : In y (x :: r1)).
    { right. eapply proj1. apply filter_In. rewrite Hy'. now left. }
    pose proof (Sorted_head_below x r1 Hf1 Hs1) as Hb1.
    pose proof (Sorted_head_below y r2 Hf2 Hs2) as Hb2.
    rewrite Forall_forall in Hb1, Hb2.
    rewrite <- Hy. apply totalLe_antisym; auto. }
  pose proof (Hsel (Calculation.totalCost x)) as Hx. cbn [filter] in Hx.
  rewrite (hasTotal_refl x Hfx), Hxy in Hx. now injection Hx.
Qed.

(** A sorted list is determined by the entries it holds for each total and
    their order: the stable sort of an array is unique, whatever algorithm
    computes it. *)
Lemma stable_sorted_unique (l1 : list Calculation.t) :
  forall l2,
    Forall finiteTotal l1 -> Forall finiteTotal l2 ->
    Sorted totalLe l1 -> Sorted totalLe l2 ->
    (forall v, filter (hasTotal v) l1 = filter (hasTotal v) l2) ->
    l1 = l2.
Proof.
  induction l1 as [|x r1 IH]; intros l2 Hf1 Hf2 Hs1 Hs2 Hsel.
  - destruct l2 as [|y r2]; [reflexivity|].
    specialize (Hsel (Calculation.totalCost y)). cbn [filter] in Hsel.
    rewrite hasTotal_refl in Hsel by now inversion Hf2. discriminate.
  - destruct l2 as [|y r2].
    + specialize (Hsel (Calculation.totalCost x)). cbn [filter] in Hsel.
      rewrite hasTotal_refl in Hsel by now inversion Hf1. discriminate.
    + pose proof (stable_sorted_same_head x y r1 r2 Hf1 Hf2 Hs1 Hs2 Hsel)
        as <-.
      f_equal. apply IH.
      * now inversion Hf1.
      * now inversion Hf2.
      * now inversion Hs1.
      * now inversion Hs2.
      * intros v. specialize (Hsel v). cbn [filter] in Hsel.
        destruct (hasTotal v x); [now injection Hsel|exact Hsel].
Qed.

(** Any sorted arrangement that keeps, total by total, the entries of [l]
    in their order is the one [sort] returns. *)
Lemma sort_is_the_stable_sort (l l' : list Calculation.t) :
  Forall finiteTotal l -> Forall finiteTotal l' ->
  Sorted totalLe l' ->
  (forall v, filter (hasTotal v) l' = filter (hasTotal v) l) ->
  l' = sort byTotalCost l.
Proof.
  intros Hf Hf' Hs' Hsel. apply stable_sorted_unique.
  - exact Hf'.
  - eapply Permutation_Forall; [symmetry; apply sort_Permutation|exact Hf].
  - exact Hs'.
  - now apply sort_Sorted.
  - intros v. rewrite Hsel. symmetry.
    apply filter_sort, same_total_not_after.
Qed.

Lemma index_0 {A : Type} (l : list A) : index l 0 = hd_error l.
Proof. now destruct l. Qed.

Lemma last_cons_default {A : Type} (l : list A) :
  forall y d d', last (y :: l) d = last (y :: l) d'.
Proof.
  induction l as [|z r IH]; intros y d d'; [reflexivity|].
  change (last (y :: z :: r) d) with (last (z :: r) d).
  change (last (y :: z :: r) d') with (last (z :: r) d').
  apply IH.
Qed.

Lemma nth_error_last {A : Type} (l : list A) :
  forall x, nth_error (x :: l) (length l) = Some (last (x :: l) x).
Proof.
  induction l as [|y r IH]; intros x; [reflexivity|].
  cbn [length nth_error]. rewrite IH.
  change (last (x :: y :: r) x) with (last (y :: r) x).
  f_equal. apply last_cons_default.
Qed.


(** [a[a.length - 1]] on a non-empty array is its last element. *)
Lemma index_last {A : Type} (x : A) (l : list A) :
  index (x :: l) (Z.of_nat (length (x :: l)) - 1) = Some (last (x :: l) x).
Proof.
  unfold index.
  replace (Z.of_nat (length (x :: l)) - 1)%Z with (Z.of_nat (length l))
    by (cbn [length]; lia).
  destruct (Z.ltb_spec (Z.of_nat (length l)) 0); [lia|].
  rewrite Nat2Z.id. apply nth_error_last.
Qed.

End Sorting.

(* ================================================================== *)
(** * The handler *)
(* ================================================================== *)

Section Handler.

Import JS Routes.
Local Open Scope Q_scope.

Lemma existsb_eqb_In (s : string) (values : list string) :
  existsb (String.eqb s) values = true <-> In s values.
Proof.
  rewrite existsb_exists. split.
  - intros [x [Hin Heq]]. apply String.eqb_eq in Heq. now subst.
  - intros Hin. exists s. split; [exact Hin|apply String.eqb_refl].
Qed.

Lemma enum_valid (values path : list string) (input : option json) (s : string) :
  input = Some (JString s) -> In s values ->
  Zod.enum values path input = inr s.
Proof.
  intros -> Hin. unfold Zod.enum.
  now rewrite (proj2 (existsb_eqb_In s values) Hin).
Qed.

Lemma enum_invalid (values path : list string) (input : option json) :
  ~ inEnum values input ->
  exists c, Zod.enum values path input
            = inl [ {| Zod.code := c; Zod.path := path |} ].
Proof.
  intros Hout. unfold Zod.enum.
  destruct input as [[ | | |s| | ]|]; try (eexists; reflexivity).
  destruct (existsb (String.eqb s) values) eqn:Hex; [|eexists; reflexivity].
  exfalso. apply Hout. exists s. split; [reflexivity|].
  now apply existsb_eqb_In.
Qed.

(** A body whose three values are in their enumerations is accepted. *)
Lemma parse_valid (members : list (string * json)) (u m t : string) :
  get members "usage" = Some (JString u) -> In u usageValues ->
  get members "material" = Some (JString m) -> In m materialValues ->
  get members "timeline" = Some (JString t) -> In t timelineValues ->
  costCalculationRequestSchema_parse (JObject members)
  = Normal {| usage := u; material := m; timeline := t |}.
Proof.
  intros Hu Hu' Hm Hm' Ht Ht'. unfold costCalculationRequestSchema_parse.
  rewrite (enum_valid _ _ _ _ Hu Hu'), (enum_valid _ _ _ _ Hm Hm'),
          (enum_valid _ _ _ _ Ht Ht').
  reflexivity.
Qed.

(** An accepted body carries values of the three enumerations. *)
Lemma parse_Normal_valid (body : json) (requestData : CostCalculationRequest) :
  costCalculationRequestSchema_parse body = Normal requestData ->
  In (usage requestData) usageValues
  /\ In (material requestData) materialValues
  /\ In (timeline requestData) timelineValues.
Proof.
  unfold costCalculationRequestSchema_parse, Zod.enum.
  destruct body as [ | | | | |members]; try discriminate.
  destruct (get members "usage") as [[ | | |u| | ]|]; try discriminate;
  destruct (existsb (String.eqb u) usageValues) eqn:Hu; try discriminate;
  destruct (get members "material") as [[ | | |m| | ]|]; try discriminate;
  destruct (existsb (String.eqb m) materialValues) eqn:Hm; try discriminate;
  destruct (get members "timeline") as [[ | | |t| | ]|]; try discriminate;
  destruct (existsb (String.eqb t) timelineValues) eqn:Ht; try discriminate.
  intros [= <-]. cbn [usage material timeline].
  now rewrite <- !existsb_eqb_In.
Qed.

(** The handler on an accepted body. *)
Lemma cost_calculator_accepted (body : json) (tubeBenders : list TubeBender.t)
  (requestData : CostCalculationRequest) :
  costCalculationRequestSchema_parse body = Normal requestData ->
  cost_calculator body tubeBenders =
    match sort byTotalCost (map (calculate requestData) tubeBenders) with
    | [] => Status500 "Failed to calculate costs"
    | first :: rest =>
        Status200
          {| request := requestData;
             calculations := first :: rest;
             bestValue := Some first;
             savings := sub (Calculation.totalCost (last (first :: rest) first))
                            (Calculation.totalCost first) |}
    end.
Proof.
  intros Hparse. unfold cost_calculator, cost_calculator_try.
  rewrite Hparse. cbn [bind].
  destruct (sort byTotalCost (map (calculate requestData) tubeBenders))
    as [|first rest]; [reflexivity|].
  rewrite index_last, index_0. reflexivity.
Qed.

(** The handler on a rejected body: the catalog plays no part. *)
Lemma cost_calculator_rejected (body : json) (tubeBenders : list TubeBender.t)
  (errors : list Zod.ZodIssue) :
  costCalculationRequestSchema_parse body = Throw (ZodError errors) ->
  cost_calculator body tubeBenders = Status400 "Invalid request data" errors.
Proof.
  intros Hparse. unfold cost_calculator, cost_calculator_try.
  now rewrite Hparse.
Qed.



End Handler.

(* ================================================================== *)
(** * Properties of the cost calculator *)
(* ================================================================== *)

Section CostCalculator.

Import JS Routes.
Local Open Scope Q_scope.

(** C2. With a valid request and an empty catalog the handler does not
    answer with an empty list, an absent [bestValue] and an absent
    [savings]: reading [totalCost] of [calculations[-1]] throws, the
    generic [catch] answers 500 "Failed to calculate costs". *)
Theorem empty_catalog_answers_500 :
  cost_calculator (Sample.body "light" "mild-steel" "1-2-years") []
  = Status500 "Failed to calculate costs"
  /\ cost_calculator_try (Sample.body "light" "mild-steel" "1-2-years") []
     = Throw (TypeError
                "Cannot read properties of undefined (reading 'totalCost')").
Proof. split; reflexivity. Qed.

(** The same for every accepted body. *)
Lemma empty_catalog_never_200 (body : json)
  (requestData : CostCalculationRequest) :
  costCalculationRequestSchema_parse body = Normal requestData ->
  cost_calculator body [] = Status500 "Failed to calculate costs".
Proof. intros H. now rewrite (cost_calculator_accepted body [] requestData H). Qed.



(** C4. When the value under "usage", "material" or "timeline" is not a
    member of the key's enumeration (absent, not a string, or another
    string), the handler answers 400 with the zod issues, one of which has
    the key as its path; the answer is the same whatever the catalog is, and
    it carries no calculations. *)
Theorem invalid_enum_value_rejected
  (members : list (string * json)) (tubeBenders : list TubeBender.t)
  (field : string) (values : list string) :
  In (field, values) requestShape ->
  ~ inEnum values (get members field) ->
  exists errors,
    cost_calculator (JObject members) tubeBenders
    = Status400 "Invalid request data" errors
    /\ (exists issue, In issue errors /\ Zod.path issue = [field])
    /\ (forall other,
          cost_calculator (JObject members) other
          = Status400 "Invalid request data" errors)
    /\ outcome (cost_calculator (JObject members) tubeBenders) = None.
Proof.
  intros Hfield Hout.
  assert (Hparse : exists errors,
             costCalculationRequestSchema_parse (JObject members)
             = Throw (ZodError errors)
             /\ exists issue, In issue errors /\ Zod.path issue = [field]).
  { unfold costCalculationRequestSchema_parse.
    cbv zeta.
    destruct Hfield as [H|[H|[H|[]]]]; injection H as <- <-;
      match type of Hout with
      | ~ inEnum ?vs (get _ ?key) =>
          destruct (enum_invalid vs [key] _ Hout) as [c Hc]; rewrite Hc;
          repeat match goal with
            | |- context [Zod.enum ?vs' ?path ?input] =>
                destruct (Zod.enum vs' path input)
            end;
          (eexists; split; [reflexivity|]);
          exists {| Zod.code := c; Zod.path := [key] |};
          (split; [|reflexivity]);
          cbn [Zod.issues]; rewrite ?in_app_iff; simpl; tauto
      end. }
  destruct Hparse as [errors [Hparse Hissue]]. exists errors.
  pose proof (cost_calculator_rejected _ tubeBenders _ Hparse) as Hresp.
  split; [exact Hresp|]. split; [exact Hissue|]. split.
  - intros other. now apply cost_calculator_rejected.
  - now rewrite Hresp.
Qed.

Lemma invalid_enum_value_rejected_witness :
  exists errors,
    cost_calculator (Sample.body "extreme" "chromoly" "3-5-years")
                    Sample.catalog
    = Status400 "Invalid request data" errors
    /\ (exists issue, In issue errors /\ Zod.path issue = ["usage"])
    /\ (forall other,
          cost_calculator (Sample.body "extreme" "chromoly" "3-5-years") other
          = Status400 "Invalid request data" errors)
    /\ outcome (cost_calculator (Sample.body "extreme" "chromoly" "3-5-years")
                                Sample.catalog) = None.
Proof.
  refine (invalid_enum_value_rejected _ Sample.catalog "usage" usageValues _ _).
  - left. reflexivity.
  - intros [s [Hs Hin]]. injection Hs as <-.
    simpl in Hin. repeat destruct Hin as [Hin|Hin]; discriminate || exact Hin.
Defined.

(** A body that is not an object is rejected as well; the issue then has
    the empty path. *)
Lemma non_object_body_rejected (body : json) (tubeBenders : list TubeBender.t) :
  (forall members, body <> JObject members) ->
  cost_calculator body tubeBenders
  = Status400 "Invalid request data"
              [ {| Zod.code := Zod.invalid_type; Zod.path := [] |} ].
Proof.
  intros H. destruct body; try reflexivity. now elim (H members).
Qed.



(** C8. Two request bodies with the same valid usage and timeline and with
    valid materials, whatever the two materials are, are both accepted, give
    the same entry for every product, and the two responses agree on the
    calculations, on [bestValue] and on [savings]. *)
Theorem material_does_not_change_result
  (members1 members2 : list (string * json))
  (tubeBenders : list TubeBender.t) (u t m1 m2 : string) :
  In u usageValues -> In t timelineValues ->
  In m1 materialValues -> In m2 materialValues ->
  get members1 "usage" = Some (JString u) ->
  get members2 "usage" = Some (JString u) ->
  get members1 "timeline" = Some (JString t) ->
  get members2 "timeline" = Some (JString t) ->
  get members1 "material" = Some (JString m1) ->
  get members2 "material" = Some (JString m2) ->
  costCalculationRequestSchema_parse (JObject members1)
  = Normal {| usage := u; material := m1; timeline := t |}
  /\ costCalculationRequestSchema_parse (JObject members2)
     = Normal {| usage := u; material := m2; timeline := t |}
  /\ (forall bender,
        calculate {| usage := u; material := m1; timeline := t |} bender
        = calculate {| usage := u; material := m2; timeline := t |} bender)
  /\ outcome (cost_calculator (JObject members1) tubeBenders)
     = outcome (cost_calculator (JObject members2) tubeBenders).
Proof.
  intros Hu Ht Hm1 Hm2 Hu1 Hu2 Ht1 Ht2 Hg1 Hg2.
  pose proof (parse_valid members1 u m1 t Hu1 Hu Hg1 Hm1 Ht1 Ht) as Hp1.
  pose proof (parse_valid members2 u m2 t Hu2 Hu Hg2 Hm2 Ht2 Ht) as Hp2.
  assert (Hcalc : forall bender,
             calculate {| usage := u; material := m1; timeline := t |} bender
             = calculate {| usage := u; material := m2; timeline := t |} bender)
    by reflexivity.
  split; [exact Hp1|]. split; [exact Hp2|]. split; [exact Hcalc|].
  rewrite (cost_calculator_accepted _ tubeBenders _ Hp1),
          (cost_calculator_accepted _ tubeBenders _ Hp2).
  rewrite (map_ext _ _ Hcalc).
  now destruct (sort byTotalCost
                  (map (calculate {| usage := u; material := m2;
                                     timeline := t |}) tubeBenders)).
Qed.

Lemma material_does_not_change_result_witness :
  outcome (cost_calculator (Sample.body "medium" "chromoly" "3-5-years")
                           Sample.catalog)
  = outcome (cost_calculator
               (JObject [("timeline", JString "3-5-years");
                         ("material", JString "aluminum");
                         ("usage", JString "medium")])
               Sample.catalog).
Proof.
  refine (proj2 (proj2 (proj2
    (material_does_not_change_result _ _ Sample.catalog
       "medium" "3-5-years" "chromoly" "aluminum" _ _ _ _ _ _ _ _ _ _))));
    solve [ reflexivity | simpl; tauto ].
Defined.

(** C10. The five cost figures of an entry are determined by the product's
    price-range text and country of origin and by the usage and timeline of
    the request: two products that agree on those two fields get the same
    figures whatever their other fields are, the material of the request
    plays no part, and [supportQuality] and [buildQuality] are copied from
    the product into the entry. *)
Theorem figures_depend_on_price_origin_usage_timeline
  (request1 request2 : CostCalculationRequest) (bender1 bender2 : TubeBender.t) :
  usage request1 = usage request2 ->
  timeline request1 = timeline request2 ->
  TubeBender.priceRange bender1 = TubeBender.priceRange bender2 ->
  TubeBender.countryOfOrigin bender1 = TubeBender.countryOfOrigin bender2 ->
  figures (calculate request1 bender1) = figures (calculate request2 bender2)
  /\ Calculation.supportQuality (calculate request1 bender1)
     = TubeBender.supportQuality bender1
  /\ Calculation.buildQuality (calculate request1 bender1)
     = TubeBender.buildQuality bender1.
Proof.
  intros Hu Ht Hp Ho.
  unfold figures, calculate, usageMultiplier, timelineMultiplier.
  rewrite Hu, Ht, Hp, Ho.
  destruct (TubeBender.countryOfOrigin bender2 =? "USA");
    repeat split; reflexivity.
Qed.

Lemma figures_depend_on_price_origin_usage_timeline_witness :
  figures (calculate {| usage := "light"; material := "chromoly";
                        timeline := "1-2-years" |} Sample.usa)
  = figures (calculate {| usage := "light"; material := "aluminum";
                          timeline := "1-2-years" |} Sample.usa_twin)
  /\ Calculation.supportQuality
       (calculate {| usage := "light"; material := "chromoly";
                     timeline := "1-2-years" |} Sample.usa)
     = TubeBender.supportQuality Sample.usa
  /\ Calculation.buildQuality
       (calculate {| usage := "light"; material := "chromoly";
                     timeline := "1-2-years" |} Sample.usa)
     = TubeBender.buildQuality Sample.usa.
Proof.
  apply figures_depend_on_price_origin_usage_timeline; reflexivity.
Defined.

End CostCalculator.

(* ================================================================== *)
(** * Properties of the score fallback *)
(* ================================================================== *)

Section ScoreFallback.

Import JS Scoring.
Local Open Scope Q_scope.


Variable E : Type.
Variable calculateTubeBenderScore :
  TubeBender.t -> completion E ScoredTubeBender.


Lemma scoredProduct_fallback (product : TubeBender.t) (e : E) :
  calculateTubeBenderScore product = Throw e ->
  scoredProduct E calculateTubeBenderScore product
  = Normal (fallback product).
Proof. intros H. unfold scoredProduct. now rewrite H. Qed.

(** On the fallback branch a rating between 0 and 10 gives an integer score
    between 0 and 100. *)
Lemma fallback_score_in_range (product : TubeBender.t) (rating : Q) :
  parseFloat (TubeBender.rating product) = Num rating ->
  0 <= rating <= 10 ->
  isIntegerIn 0 100 (totalScore (fallback product)) = true.
Proof.
  intros Hr [Hlo Hhi]. cbn [fallback totalScore]. rewrite Hr.
  cbn [mul Math_round isIntegerIn]. rewrite Qfloor_Z, Qeq_bool_refl.
  apply andb_true_iff. split; apply Z.leb_le.
  - change 0%Z with (Qfloor 0). apply Qfloor_resp_le. lra.
  - change 100%Z with (Qfloor (100 + (1 # 2))). apply Qfloor_resp_le. lra.
Qed.

End ScoreFallback.

(** A rating of "9.2" scores 92; a rating of "11" scores 110. *)
Example fallback_rating_9_2 :
  JS.eqb (Scoring.totalScore (Scoring.fallback Sample.usa)) (JS.Num 92) = true.
Proof. reflexivity. Qed.

Example fallback_rating_11 :
  JS.eqb (Scoring.totalScore (Scoring.fallback Sample.overrated)) (JS.Num 110)
  = true
  /\ isIntegerIn 0 100 (Scoring.totalScore (Scoring.fallback Sample.overrated))
     = false.
Proof. split; reflexivity. Qed.

Section ScoreFallbackClaims.

Import JS Scoring.
Local Open Scope Q_scope.



(** C9. When the primary scoring function throws on a product whose rating
    text [parseFloat] cannot read, the component still obtains a scored
    product with one breakdown entry, but the total score and the points of
    that entry are [NaN], which is not an integer between 0 and 100. *)
Theorem unparseable_rating_scores_NaN
  (E : Type)
  (calculateTubeBenderScore : TubeBender.t -> completion E ScoredTubeBender)
  (product : TubeBender.t) (e : E) :
  calculateTubeBenderScore product = Throw e ->
  parseFloat (TubeBender.rating product) = NaN ->
  exists scored item,
    scoredProduct E calculateTubeBenderScore product = Normal scored
    /\ scoreBreakdown scored = [item]
    /\ totalScore scored = NaN
    /\ points item = NaN
    /\ isIntegerIn 0 100 (totalScore scored) = false.
Proof.
  intros Hthrow Hnan. exists (fallback product). eexists.
  split; [now apply scoredProduct_fallback with (e := e)|].
  cbn [scoreBreakdown fallback points totalScore]. rewrite Hnan.
  repeat split; reflexivity.
Qed.

Lemma unparseable_rating_scores_NaN_witness :
  exists scored item,
    scoredProduct unit Sample.alwaysThrows Sample.cheap = Normal scored
    /\ scoreBreakdown scored = [item]
    /\ totalScore scored = NaN
    /\ points item = NaN
    /\ isIntegerIn 0 100 (totalScore scored) = false.
Proof.
  apply (unparseable_rating_scores_NaN unit Sample.alwaysThrows Sample.cheap tt);
    reflexivity.
Defined.

End ScoreFallbackClaims.

(* ================================================================== *)
(** * Further properties of the cost calculator *)
(* ================================================================== *)

Section CostCalculatorFurther.

Import JS Routes.
Local Open Scope Q_scope.

Lemma enum_validField_true (values path : list string) (input : option json) :
  validField values input = true ->
  exists s, Zod.enum values path input = inr s.
Proof.
  unfold validField, Zod.enum.
  destruct input as [[ | | |s| | ]|]; try discriminate.
  intros ->. now exists s.
Qed.

Lemma enum_validField_false (values path : list string)
  (input : option json) :
  validField values input = false ->
  exists c, Zod.enum values path input
            = inl [ {| Zod.code := c; Zod.path := path |} ].
Proof.
  unfold validField, Zod.enum.
  destruct input as [[ | | |s| | ]|]; try (intros _; eexists; reflexivity).
  intros ->. eexists; reflexivity.
Qed.

(** X1. The schema reports every refused key, not only the first one: a
    body with no refused key is accepted, and otherwise the 400 answer holds
    exactly one issue per refused key, in schema order, each with the key
    as its path. *)
Theorem every_invalid_field_is_reported
  (members : list (string * json)) (tubeBenders : list TubeBender.t) :
  match invalidKeys members with
  | [] =>
      exists requestData,
        costCalculationRequestSchema_parse (JObject members)
        = Normal requestData
  | keys =>
      exists errors,
        cost_calculator (JObject members) tubeBenders
        = Status400 "Invalid request data" errors
        /\ map Zod.path errors = map (fun key => [key]) keys
  end.
Proof.
  unfold invalidKeys, cost_calculator, cost_calculator_try,
    costCalculationRequestSchema_parse.
  cbn [filter map fst snd].
  destruct (validField usageValues (get members "usage")) eqn:Hu;
    [destruct (enum_validField_true _ ["usage"] _ Hu) as [u ->]
    |destruct (enum_validField_false _ ["usage"] _ Hu) as [cu ->]];
  (destruct (validField materialValues (get members "material")) eqn:Hm;
    [destruct (enum_validField_true _ ["material"] _ Hm) as [m ->]
    |destruct (enum_validField_false _ ["material"] _ Hm) as [cm ->]]);
  (destruct (validField timelineValues (get members "timeline")) eqn:Ht;
    [destruct (enum_validField_true _ ["timeline"] _ Ht) as [t ->]
    |destruct (enum_validField_false _ ["timeline"] _ Ht) as [ct ->]]);
  cbn [negb map fst]; eexists; try (split; reflexivity); reflexivity.
Qed.




















End CostCalculatorFurther.

(* ================================================================== *)
(** * Properties of the contact form *)
(* ================================================================== *)

Section ContactForm.

Import Contact.
Local Open Scope Z_scope.

Lemma Map_get_set_same (m : RateLimiter) (key : string) (v : list Z) :
  Map_get (Map_set m key v) key = Some v.
Proof.
  induction m as [|[k w] r IH]; cbn [Map_set Map_get].
  - now rewrite String.eqb_refl.
  - destruct (String.eqb k key) eqn:E; cbn [Map_get]; rewrite E; auto.
Qed.

Lemma Map_get_set_other (m : RateLimiter) (key other : string) (v : list Z) :
  other <> key -> Map_get (Map_set m key v) other = Map_get m other.
Proof.
  intros Hne. induction m as [|[k w] r IH]; cbn [Map_set Map_get].
  - destruct (String.eqb_spec key other); [congruence|reflexivity].
  - destruct (String.eqb_spec k key) as [->|Hk]; cbn [Map_get].
    + destruct (String.eqb_spec key other); [congruence|reflexivity].
    + now rewrite IH.
Qed.

(** What the rate limiter does to the histories. *)
Lemma rateLimit_history (now : Z) (limiter : option RateLimiter)
  (req : Request) :
  let recent :=
    filter (fun time => now - time <? 3600000)
           (history limiter (rateLimitKey req)) in
  if (3 <=? length recent)%nat then
    fst (rateLimit now limiter req)
    = Error 429 "Too many submissions. Please try again later."
    /\ forall key,
         history (snd (rateLimit now limiter req)) key = history limiter key
  else
    fst (rateLimit now limiter req)
    = Success "Contact form submitted successfully"
    /\ history (snd (rateLimit now limiter req)) (rateLimitKey req)
       = (recent ++ [now])%list
    /\ forall key,
         key <> rateLimitKey req ->
         history (snd (rateLimit now limiter req)) key = history limiter key.
Proof.
  unfold rateLimit, history.
  set (m := match limiter with Some m => m | None => [] end).
  assert (Hm : forall key,
             match limiter with
             | Some m0 =>
                 match Map_get m0 key with Some h => h | None => [] end
             | None => []
             end
             = match Map_get m key with Some h => h | None => [] end)
    by (intros key; subst m; now destruct limiter).
  rewrite !Hm.
  match goal with
  | |- context [Nat.leb 3 ?n] => destruct (Nat.leb 3 n)
  end; cbn [fst snd].
  - split; [reflexivity|]. intros key. now rewrite Hm.
  - split; [reflexivity|]. split.
    + now rewrite Map_get_set_same.
    + intros key Hne. rewrite Hm. now rewrite Map_get_set_other.
Qed.

(** X7. A submission that is not answered with success leaves the kept
    submissions of every client as they were. *)
Theorem rejection_keeps_histories
  (now : Z) (limiter : option RateLimiter) (req : Request) :
  (forall message, fst (contact now limiter req) <> Success message) ->
  forall key,
    history (snd (contact now limiter req)) key = history limiter key.
Proof.
  unfold contact. intros Hrej key.
  destruct (contentError (body req)); [reflexivity|].
  pose proof (rateLimit_history now limiter req) as H. cbv zeta in H.
  match type of H with
  | context [Nat.leb 3 ?n] => destruct (Nat.leb 3 n)
  end.
  - now apply H.
  - destruct H as [H _]. now elim (Hrej _ H).
Qed.

Lemma rejection_keeps_histories_witness :
  history (snd (contact 1000 None (ContactSample.request "too short")))
          "contact_203.0.113.7"
  = history None "contact_203.0.113.7".
Proof.
  apply rejection_keeps_histories. intros message. discriminate.
Defined.

Lemma contact_bounded (now : Z) (limiter : option RateLimiter)
  (req : Request) :
  bounded limiter -> bounded (snd (contact now limiter req)).
Proof.
  unfold contact. intros Hb.
  destruct (contentError (body req)); [exact Hb|].
  pose proof (rateLimit_history now limiter req) as H. cbv zeta in H.
  intros key.
  match type of H with
  | context [Nat.leb 3 ?n] => destruct (Nat.leb 3 n) eqn:Hlen
  end.
  - destruct H as [_ H]. rewrite H. apply Hb.
  - destruct H as (_ & Hsame & Hother).
    destruct (string_dec key (rateLimitKey req)) as [->|Hne].
    + rewrite Hsame, length_app. cbn [length].
      apply Nat.leb_gt in Hlen. lia.
    + rewrite (Hother key Hne). apply Hb.
Qed.

(** X8. Serving any sequence of requests never makes the limiter keep more
    than three submissions for a client. *)
Theorem histories_stay_bounded
  (requests : list (Z * Request)) :
  forall limiter,
    bounded limiter -> bounded (snd (serve limiter requests)).
Proof.
  induction requests as [|[now req] rest IH]; intros limiter Hb;
    cbn [serve]; [exact Hb|].
  pose proof (contact_bounded now limiter req Hb) as Hb'.
  destruct (contact now limiter req) as [response limiter'].
  cbn [snd] in Hb'. specialize (IH limiter' Hb').
  destruct (serve limiter' rest) as [responses final]. exact IH.
Qed.

Lemma histories_stay_bounded_witness :
  bounded (snd (serve None
                  [(0, ContactSample.question); (1, ContactSample.question);
                   (2, ContactSample.question); (3, ContactSample.question);
                   (4000000, ContactSample.question)])).
Proof.
  apply histories_stay_bounded. intros key. cbn. lia.
Defined.

(** A request that passes the content checks, seen from the histories. *)
Lemma contact_passed (now : Z) (limiter : option RateLimiter) (req : Request) :
  contentError (body req) = None ->
  let recent :=
    filter (fun time => now - time <? 3600000)
           (history limiter (rateLimitKey req)) in
  if (3 <=? length recent)%nat then
    fst (contact now limiter req)
    = Error 429 "Too many submissions. Please try again later."
  else
    fst (contact now limiter req)
    = Success "Contact form submitted successfully"
    /\ history (snd (contact now limiter req)) (rateLimitKey req)
       = (recent ++ [now])%list.
Proof.
  intros Hc. unfold contact. rewrite Hc.
  pose proof (rateLimit_history now limiter req) as H. cbv zeta in *.
  match type of H with
  | context [Nat.leb 3 ?n] => destruct (Nat.leb 3 n)
  end.
  - now destruct H.
  - destruct H as (H1 & H2 & _). now split.
Qed.

(** X9. From a state in which a client has no submission kept, three
    submissions of that client that pass the content checks succeed, and a
    fourth one made less than an hour after the first is answered 429. *)
Theorem fourth_submission_within_the_hour
  (limiter : option RateLimiter) (r1 r2 r3 r4 : Request) (key : string)
  (t1 t2 t3 t4 : Z) :
  Forall (fun r => contentError (body r) = None /\ rateLimitKey r = key)
         [r1; r2; r3; r4] ->
  history limiter key = [] ->
  t1 <= t2 <= t3 -> t3 <= t4 < t1 + 3600000 ->
  fst (serve limiter [(t1, r1); (t2, r2); (t3, r3); (t4, r4)])
  = [Success "Contact form submitted successfully";
     Success "Contact form submitted successfully";
     Success "Contact form submitted successfully";
     Error 429 "Too many submissions. Please try again later."].
Proof.
  intros Hreqs Hh0 H123 H4.
  repeat rewrite Forall_cons_iff in Hreqs.
  destruct Hreqs as ([Hc1 Hk1] & [Hc2 Hk2] & [Hc3 Hk3] & [Hc4 Hk4] & _).
  assert (Hr : forall a b, a <= b < t1 + 3600000 -> t1 <= a ->
                           (b - a <? 3600000) = true)
    by (intros a b Hab Ha; apply Z.ltb_lt; lia).
  cbn [serve].
  pose proof (contact_passed t1 limiter r1 Hc1) as P1. cbv zeta in P1.
  rewrite Hk1, Hh0 in P1. cbn [filter length Nat.leb app] in P1.
  destruct (contact t1 limiter r1) as [a1 l1]. cbn [fst snd] in P1.
  destruct P1 as [-> Hh1].
  pose proof (contact_passed t2 l1 r2 Hc2) as P2. cbv zeta in P2.
  rewrite Hk2, Hh1 in P2. cbn [filter] in P2.
  rewrite (Hr t1 t2) in P2 by lia. cbn [length Nat.leb app] in P2.
  destruct (contact t2 l1 r2) as [a2 l2]. cbn [fst snd] in P2.
  destruct P2 as [-> Hh2].
  pose proof (contact_passed t3 l2 r3 Hc3) as P3. cbv zeta in P3.
  rewrite Hk3, Hh2 in P3. cbn [filter] in P3.
  rewrite (Hr t1 t3), (Hr t2 t3) in P3 by lia.
  cbn [length Nat.leb app] in P3.
  destruct (contact t3 l2 r3) as [a3 l3]. cbn [fst snd] in P3.
  destruct P3 as [-> Hh3].
  pose proof (contact_passed t4 l3 r4 Hc4) as P4. cbv zeta in P4.
  rewrite Hk4, Hh3 in P4. cbn [filter] in P4.
  rewrite (Hr t1 t4), (Hr t2 t4), (Hr t3 t4) in P4 by lia.
  cbn [length Nat.leb app] in P4.
  destruct (contact t4 l3 r4) as [a4 l4]. cbn [fst snd] in P4.
  now rewrite P4.
Qed.

Lemma fourth_submission_within_the_hour_witness :
  fst (serve None
         [(1000, ContactSample.question); (2000, ContactSample.question);
          (3000, ContactSample.question); (3599999, ContactSample.question)])
  = [Success "Contact form submitted successfully";
     Success "Contact form submitted successfully";
     Success "Contact form submitted successfully";
     Error 429 "Too many submissions. Please try again later."].
Proof.
  apply (fourth_submission_within_the_hour None _ _ _ _
           "contact_203.0.113.7").
  - repeat constructor.
  - reflexivity.
  - lia.
  - lia.
Defined.

Lemma filter_nothing {A : Type} (f : A -> bool) (l : list A) :
  (forall x, In x l -> f x = false) -> filter f l = [].
Proof.
  induction l as [|x r IH]; intros H; [reflexivity|].
  cbn [filter]. rewrite (H x (or_introl eq_refl)).
  apply IH. intros y Hy. apply H. now right.
Qed.

(** X10. Submissions kept for an hour or longer no longer count: when all
    the submissions kept for a client are that old, a request that passes
    the content checks succeeds, and only its own time remains kept. *)
Theorem old_submissions_are_forgotten
  (now : Z) (limiter : option RateLimiter) (req : Request) :
  contentError (body req) = None ->
  (forall time, In time (history limiter (rateLimitKey req)) ->
                3600000 <= now - time) ->
  fst (contact now limiter req) = Success "Contact form submitted successfully"
  /\ history (snd (contact now limiter req)) (rateLimitKey req) = [now].
Proof.
  intros Hc Hold.
  pose proof (contact_passed now limiter req Hc) as P. cbv zeta in P.
  assert (Hnone :
            filter (fun time => now - time <? 3600000)
                   (history limiter (rateLimitKey req)) = []).
  { apply filter_nothing. intros time Hin. apply Z.ltb_ge. now apply Hold. }
  rewrite Hnone in P. exact P.
Qed.

Lemma old_submissions_are_forgotten_witness :
  fst (contact 3601000
         (Some [("contact_203.0.113.7", [0; 500; 1000])])
         ContactSample.question)
  = Success "Contact form submitted successfully"
  /\ history (snd (contact 3601000
                     (Some [("contact_203.0.113.7", [0; 500; 1000])])
                     ContactSample.question))
             (rateLimitKey ContactSample.question)
     = [3601000].
Proof.
  apply old_submissions_are_forgotten.
  - reflexivity.
  - intros time Hin. vm_compute in Hin.
    destruct Hin as [<-|[<-|[<-|[]]]]; lia.
Defined.

(** X11. A body without [timeSpent] is never answered "Form submitted too
    quickly": the comparison of [undefined] with 10000 is false, so the
    check lets the request through. *)
Theorem missing_timeSpent_is_not_too_quick
  (now : Z) (limiter : option RateLimiter) (req : Request) :
  timeSpent (body req) = None ->
  fst (contact now limiter req) <> Error 400 "Form submitted too quickly".
Proof.
  intros Ht. unfold contact, contentError, tooQuick. rewrite Ht.
  cbn [JS.ltb].
  destruct (truthy (honeypot (body req))); [discriminate|].
  destruct (negb (truthy (name (body req))) || negb (truthy (email (body req)))
            || negb (truthy (subject (body req)))
            || negb (truthy (message (body req))))%bool; [discriminate|].
  destruct (name (body req)), (email (body req)), (subject (body req)),
    (message (body req)); try discriminate.
  destruct (String.length s2 <? 20)%nat; [discriminate|].
  destruct (prohibited _); [discriminate|].
  unfold rateLimit. now destruct (Nat.leb 3 _).
Qed.

Lemma missing_timeSpent_is_not_too_quick_witness :
  fst (contact 0 None
         {| body :=
              {| name := Some "Ada"; email := Some "ada@example.org";
                 subject := Some "Die sizes";
                 message := Some "Which die set fits 1.75 inch tube?";
                 type := None; honeypot := None; mathAnswer := None;
                 timeSpent := None; fingerprint := None |};
            ip := None; remoteAddress := None |})
  <> Error 400 "Form submitted too quickly".
Proof.
  apply missing_timeSpent_is_not_too_quick. reflexivity.
Defined.

(** ** What the content checks let through *)

Lemma contentError_400 (b : Body) (r : Response) :
  contentError b = Some r -> exists error, r = Error 400 error.
Proof.
  unfold contentError.
  destruct (truthy (honeypot b)); [intros [= <-]; eauto|].
  destruct (tooQuick (timeSpent b)); [intros [= <-]; eauto|].
  destruct (negb (truthy (name b)) || negb (truthy (email b))
            || negb (truthy (subject b)) || negb (truthy (message b)))%bool;
    [intros [= <-]; eauto|].
  destruct (name b), (email b), (subject b), (message b);
    try (intros [= <-]; eauto).
  destruct (String.length _ <? 20)%nat; [intros [= <-]; eauto|].
  destruct (prohibited _); [intros [= <-]; eauto|discriminate].
Qed.

(** A body that passes the checks has its four texts, and their
    concatenation matches none of the patterns. *)
Lemma contentError_None (b : Body) :
  contentError b = None ->
  exists n e s m,
    name b = Some n /\ email b = Some e /\ subject b = Some s
    /\ message b = Some m
    /\ prohibited (n ++ " " ++ e ++ " " ++ s ++ " " ++ m) = false.
Proof.
  unfold contentError.
  destruct (truthy (honeypot b)); [discriminate|].
  destruct (tooQuick (timeSpent b)); [discriminate|].
  destruct (negb (truthy (name b)) || negb (truthy (email b))
            || negb (truthy (subject b)) || negb (truthy (message b)))%bool;
    [discriminate|].
  destruct (name b) as [n|], (email b) as [e|], (subject b) as [s|],
    (message b) as [m|]; try discriminate.
  destruct (String.length m <? 20)%nat; [discriminate|].
  destruct (prohibited _) eqn:Hp; [discriminate|].
  intros _. exists n, e, s, m. auto.
Qed.

(** A body whose texts match a pattern is answered 400 and stores
    nothing. *)
Lemma prohibited_rejected (now : Z) (limiter : option RateLimiter)
  (req : Request) :
  (forall n e s m,
      name (body req) = Some n -> email (body req) = Some e ->
      subject (body req) = Some s -> message (body req) = Some m ->
      prohibited (n ++ " " ++ e ++ " " ++ s ++ " " ++ m) = true) ->
  exists error, contact now limiter req = (Error 400 error, limiter).
Proof.
  intros Hp. unfold contact.
  destruct (contentError (body req)) as [r|] eqn:Hc.
  - destruct (contentError_400 _ _ Hc) as [error ->]. now exists error.
  - destruct (contentError_None _ Hc) as (n & e & s & m & Hn & He & Hs & Hm & H).
    rewrite (Hp n e s m Hn He Hs Hm) in H. discriminate.
Qed.

Lemma string_app_assoc (a b c : string) : (a ++ b) ++ c = a ++ b ++ c.
Proof. induction a as [|x r IH]; simpl; [reflexivity|now rewrite IH]. Qed.

(** A test that survives text put before and after what it matched also
    finds it in the concatenation of the four fields. *)
Lemma found_in_allText (test : string -> bool) (x n e s m : string) :
  (forall a b, test b = true -> test (a ++ b) = true) ->
  (forall a b, test a = true -> test (a ++ b) = true) ->
  In x [n; e; s; m] -> test x = true ->
  test (n ++ " " ++ e ++ " " ++ s ++ " " ++ m) = true.
Proof.
  intros Hl Hr Hin Hx.
  destruct Hin as [<-|[<-|[<-|[<-|[]]]]].
  - now apply Hr.
  - apply Hl, Hl. now apply Hr.
  - apply Hl, Hl, Hl, Hl. now apply Hr.
  - apply Hl, Hl, Hl, Hl, Hl, Hl. exact Hx.
Qed.

Lemma prefix_nil (a : string) : String.prefix EmptyString a = true.
Proof. now destruct a. Qed.

Lemma prefix_app (needle a b : string) :
  String.prefix needle a = true -> String.prefix needle (a ++ b) = true.
Proof.
  revert a. induction needle as [|c r IH]; intros a H;
    [apply prefix_nil|].
  destruct a as [|d a']; cbn [String.prefix append] in *; [discriminate|].
  destruct (ascii_dec c d); [now apply IH|discriminate].
Qed.

Lemma prefix_self_app (needle b : string) :
  String.prefix needle (needle ++ b) = true.
Proof.
  induction needle as [|c r IH]; [apply prefix_nil|].
  cbn [String.prefix append]. now destruct (ascii_dec c c).
Qed.

Lemma includes_app_l (needle a b : string) :
  includes needle b = true -> includes needle (a ++ b) = true.
Proof.
  intros H. induction a as [|c r IH]; [exact H|].
  cbn [append includes]. rewrite IH. apply orb_true_r.
Qed.

Lemma includes_app_r (needle a b : string) :
  includes needle a = true -> includes needle (a ++ b) = true.
Proof.
  induction a as [|c r IH]; cbn [includes append]; intros H.
  - rewrite orb_false_r in H.
    destruct needle; [now destruct b|discriminate].
  - apply orb_true_iff in H. apply orb_true_iff. destruct H as [H|H].
    + left. exact (prefix_app needle (String c r) b H).
    + right. now apply IH.
Qed.

Lemma includes_self (needle a b : string) :
  includes needle (a ++ needle ++ b) = true.
Proof.
  apply includes_app_l. destruct (needle ++ b) eqn:E; cbn [includes];
    rewrite <- E, prefix_self_app; reflexivity.
Qed.

Lemma testUrl_app_l (a b : string) :
  testUrl b = true -> testUrl (a ++ b) = true.
Proof.
  unfold testUrl. rewrite !orb_true_iff.
  intros [H|H]; [left|right]; now apply includes_app_l.
Qed.

Lemma testUrl_app_r (a b : string) :
  testUrl a = true -> testUrl (a ++ b) = true.
Proof.
  unfold testUrl. rewrite !orb_true_iff.
  intros [H|H]; [left|right]; now apply includes_app_r.
Qed.

(** X12. A submission with "http://" or "https://" anywhere in its name,
    email, subject or message is answered 400 and is not counted by the
    rate limiter. *)
Theorem link_is_never_accepted
  (now : Z) (limiter : option RateLimiter) (req : Request)
  (field : Body -> option string) (scheme before after : string) :
  In field [name; email; subject; message] ->
  In scheme ["http://"; "https://"] ->
  field (body req) = Some (before ++ scheme ++ after) ->
  exists error, contact now limiter req = (Error 400 error, limiter).
Proof.
  intros Hfield Hscheme Htext. apply prohibited_rejected.
  intros n e s m Hn He Hs Hm. unfold prohibited.
  assert (Hurl : testUrl (before ++ scheme ++ after) = true).
  { unfold testUrl. apply orb_true_iff.
    destruct Hscheme as [<-|[<-|[]]]; [left|right]; apply includes_self. }
  rewrite (found_in_allText testUrl (before ++ scheme ++ after) n e s m
             testUrl_app_l testUrl_app_r).
  - now rewrite orb_true_r.
  - destruct Hfield as [<-|[<-|[<-|[<-|[]]]]]; rewrite Htext in *.
    + injection Hn as <-. now left.
    + injection He as <-. right. now left.
    + injection Hs as <-. right. right. now left.
    + injection Hm as <-. right. right. right. now left.
  - exact Hurl.
Qed.

Lemma link_is_never_accepted_witness :
  exists error,
    contact 0 None
      (ContactSample.request "Please look at https://example.org/benders")
    = (Error 400 error, None).
Proof.
  apply (link_is_never_accepted 0 None _ message "https://"
           "Please look at " "example.org/benders").
  - right. right. right. now left.
  - right. now left.
  - reflexivity.
Defined.

Lemma runLength_app (c : ascii) (a b : string) :
  (runLength c a <= runLength c (a ++ b))%nat.
Proof.
  induction a as [|d r IH]; cbn [runLength append]; [lia|].
  destruct (Ascii.eqb c d); lia.
Qed.

Lemma runLength_repeatChar (c : ascii) (k : nat) (b : string) :
  (k <= runLength c (repeatChar c k ++ b))%nat.
Proof.
  induction k as [|k IH]; cbn [repeatChar runLength append]; [lia|].
  rewrite Ascii.eqb_refl. lia.
Qed.

Lemma testRepeat_app_l (a b : string) :
  testRepeat b = true -> testRepeat (a ++ b) = true.
Proof.
  intros H. induction a as [|c r IH]; [exact H|].
  cbn [append testRepeat]. rewrite IH. apply orb_true_r.
Qed.

Lemma testRepeat_app_r (a b : string) :
  testRepeat a = true -> testRepeat (a ++ b) = true.
Proof.
  induction a as [|c r IH]; cbn [testRepeat append]; [discriminate|].
  intros H. apply orb_true_iff in H. apply orb_true_iff.
  destruct H as [H|H]; [left|right; now apply IH].
  apply andb_true_iff in H. destruct H as [Hc Hrun].
  apply andb_true_iff. split; [exact Hc|].
  apply Nat.leb_le in Hrun. apply Nat.leb_le.
  pose proof (runLength_app c r b). lia.
Qed.

(** X13. A submission in which one character, other than a line break,
    stands eleven times in a row or more, in any of the four texts, is
    answered 400 and is not counted by the rate limiter. *)
Theorem long_run_is_never_accepted
  (now : Z) (limiter : option RateLimiter) (req : Request)
  (field : Body -> option string) (c : ascii) (k : nat)
  (before after : string) :
  In field [name; email; subject; message] ->
  isLineTerminator c = false -> (11 <= k)%nat ->
  field (body req) = Some (before ++ repeatChar c k ++ after) ->
  exists error, contact now limiter req = (Error 400 error, limiter).
Proof.
  intros Hfield Hc Hk Htext. apply prohibited_rejected.
  intros n e s m Hn He Hs Hm. unfold prohibited.
  assert (Hrun : testRepeat (before ++ repeatChar c k ++ after) = true).
  { apply testRepeat_app_l. destruct k as [|k]; [lia|].
    cbn [repeatChar append testRepeat]. rewrite Hc. cbn [negb andb].
    apply orb_true_iff. left. apply Nat.leb_le.
    pose proof (runLength_repeatChar c k after). lia. }
  rewrite (found_in_allText testRepeat (before ++ repeatChar c k ++ after)
             n e s m testRepeat_app_l testRepeat_app_r).
  - now rewrite !orb_true_r.
  - destruct Hfield as [<-|[<-|[<-|[<-|[]]]]]; rewrite Htext in *.
    + injection Hn as <-. now left.
    + injection He as <-. right. now left.
    + injection Hs as <-. right. right. now left.
    + injection Hm as <-. right. right. right. now left.
  - exact Hrun.
Qed.

Lemma long_run_is_never_accepted_witness :
  exists error,
    contact 0 None (ContactSample.request "Great site!!!!!!!!!!! Thanks")
    = (Error 400 error, None).
Proof.
  apply (long_run_is_never_accepted 0 None _ message "!"%char 11
           "Great site" " Thanks").
  - right. right. right. now left.
  - reflexivity.
  - lia.
  - reflexivity.
Defined.

Lemma testSpamWord_app (a b : string) :
  forall before,
    testSpamWord (endsInWordChar before a) b = true ->
    testSpamWord before (a ++ b) = true.
Proof.
  induction a as [|c r IH]; intros before H; [exact H|].
  cbn [append testSpamWord]. cbn [endsInWordChar] in H.
  rewrite (IH _ H). apply orb_true_r.
Qed.

Lemma afterPrefixIgnoreCase_equal (word : string) :
  forall found rest,
    equalIgnoreCase word found = true ->
    afterPrefixIgnoreCase word (found ++ rest) = Some rest.
Proof.
  induction word as [|a w IH]; intros [|b f] rest H;
    try discriminate; [reflexivity|].
  cbn [equalIgnoreCase] in H. apply andb_true_iff in H.
  destruct H as [Hab Hw].
  cbn [append afterPrefixIgnoreCase]. rewrite Hab. now apply IH.
Qed.

Lemma atWordEnd_app (a b : string) :
  atWordEnd a = true -> atWordEnd b = true -> atWordEnd (a ++ b) = true.
Proof. now destruct a. Qed.

(** X14. A message that holds one of the listed words as a whole word, in
    any mix of upper and lower case, is answered 400 and is not counted by
    the rate limiter. *)
Theorem spam_word_is_never_accepted
  (now : Z) (limiter : option RateLimiter) (req : Request)
  (word found before after : string) :
  In word spamWords ->
  equalIgnoreCase word found = true ->
  endsInWordChar false before = false ->
  atWordEnd after = true ->
  message (body req) = Some (before ++ found ++ after) ->
  exists error, contact now limiter req = (Error 400 error, limiter).
Proof.
  intros Hword Hfound Hbefore Hafter Htext. apply prohibited_rejected.
  intros n e s m Hn He Hs Hm. unfold prohibited.
  rewrite Htext in Hm. injection Hm as <-.
  assert (Hhit : testSpamWord false (found ++ after) = true).
  { assert (Hat : spamWordAt (found ++ after) = true).
    { unfold spamWordAt. apply existsb_exists. exists word.
      split; [exact Hword|].
      now rewrite (afterPrefixIgnoreCase_equal word found after Hfound). }
    destruct found as [|c f].
    - destruct word; [|discriminate].
      simpl in Hword. repeat destruct Hword as [Hword|Hword];
        discriminate || contradiction.
    - cbn [append testSpamWord]. cbn [append] in Hat.
      now rewrite Hat. }
  assert (Hall : testSpamWord false
                   (n ++ " " ++ e ++ " " ++ s ++ " " ++ before ++ found
                      ++ after) = true).
  { apply testSpamWord_app, (testSpamWord_app " "), testSpamWord_app,
      (testSpamWord_app " "), testSpamWord_app, (testSpamWord_app " "),
      testSpamWord_app.
    cbn [endsInWordChar]. change (isWordChar " ") with false.
    rewrite Hbefore. exact Hhit. }
  now rewrite Hall.
Qed.

Lemma spam_word_is_never_accepted_witness :
  exists error,
    contact 0 None (ContactSample.request "Visit our online CASINO today")
    = (Error 400 error, None).
Proof.
  apply (spam_word_is_never_accepted 0 None _ "casino" "CASINO"
           "Visit our online " " today").
  - simpl. tauto.
  - reflexivity.
  - reflexivity.
  - reflexivity.
  - reflexivity.
Defined.

End ContactForm.

(* ================================================================== *)
(** * Properties of the tube bender routes *)
(* ================================================================== *)

Section TubeBenderRoutes.

Import JS JSLib Catalog.

Lemma readSign_suffix (s : string) :
  snd (readSign s) = s \/ exists c, s = String c (snd (readSign s)).
Proof.
  destruct s as [|c r]; [now left|].
  destruct c as [[] [] [] [] [] [] [] []]; cbn; eauto.
Qed.

Lemma digitFree_trimStart (s : string) :
  digitFree s = true -> digitFree (trimStart s) = true.
Proof.
  induction s as [|c r IH]; [reflexivity|]. intros H.
  cbn [trimStart]. destruct (isWhiteSpace c); [|exact H].
  apply IH. cbn [digitFree] in H. now apply andb_true_iff in H.
Qed.

Lemma scanDigits_digitFree (s : string) (acc : Z) (n : nat) :
  digitFree s = true -> scanDigits acc n s = (acc, n, s).
Proof.
  destruct s as [|c r]; [reflexivity|]. cbn [digitFree scanDigits].
  intros H. apply andb_true_iff in H. destruct H as [H _].
  apply negb_true_iff in H. now rewrite H.
Qed.

Lemma afterHexPrefix_digitFree (s : string) :
  digitFree s = true -> afterHexPrefix s = None.
Proof.
  destruct s as [|c r]; [reflexivity|]. cbn [digitFree].
  intros H. apply andb_true_iff in H. destruct H as [H _].
  destruct c as [[] [] [] [] [] [] [] []]; try reflexivity; discriminate H.
Qed.

(** An id without any digit is not a number. *)
Lemma parseInt_digitFree (s : string) :
  digitFree s = true -> parseInt s = NaN.
Proof.
  intros H. unfold parseInt.
  pose proof (digitFree_trimStart s H) as Ht.
  assert (Hs : digitFree (snd (readSign (trimStart s))) = true).
  { destruct (readSign_suffix (trimStart s)) as [->|[c Hc]]; [exact Ht|].
    rewrite Hc in Ht. cbn [digitFree] in Ht.
    now apply andb_true_iff in Ht. }
  destruct (readSign (trimStart s)) as [negative s1]. cbn [snd] in Hs.
  rewrite (afterHexPrefix_digitFree s1 Hs), (scanDigits_digitFree s1 _ _ Hs).
  reflexivity.
Qed.

(** X15. An id without a single digit ("recommended", "abc") is answered
    400 "Invalid tube bender ID" by the read and by the category update, and
    the storage is not consulted. *)
Theorem id_without_digit_is_invalid
  (getTubeBender : number -> option TubeBender.t)
  (updateTubeBenderCategory : number -> string -> option TubeBender.t)
  (idParam : string) (body : json) :
  digitFree idParam = true ->
  getTubeBenderById getTubeBender idParam
  = (Failure 400 "Invalid tube bender ID", [])
  /\ updateCategory updateTubeBenderCategory idParam body
     = (Failure 400 "Invalid tube bender ID", []).
Proof.
  intros H. unfold getTubeBenderById, updateCategory.
  rewrite (parseInt_digitFree idParam H). split; reflexivity.
Qed.

Lemma id_without_digit_is_invalid_witness :
  getTubeBenderById (fun _ => Some Sample.usa) "recommended"
  = (Failure 400 "Invalid tube bender ID", [])
  /\ updateCategory (fun _ _ => Some Sample.usa) "recommended"
                    (JObject [("category", JString "budget")])
     = (Failure 400 "Invalid tube bender ID", []).
Proof. apply id_without_digit_is_invalid. reflexivity. Defined.






Lemma trimStart_start (s : string) :
  startsWithWhiteSpace (trimStart s) = false.
Proof.
  induction s as [|c r IH]; [reflexivity|].
  cbn [trimStart]. destruct (isWhiteSpace c) eqn:Hc; [exact IH|].
  cbn [startsWithWhiteSpace]. exact Hc.
Qed.

Lemma trimEnd_end (s : string) : endsWithWhiteSpace (trimEnd s) = false.
Proof.
  induction s as [|c r IH]; [reflexivity|].
  cbn [trimEnd]. destruct (trimEnd r) as [|d r'] eqn:Hr.
  - destruct (isWhiteSpace c) eqn:Hc; [reflexivity|].
    cbn [endsWithWhiteSpace]. exact Hc.
  - exact IH.
Qed.

Lemma trimEnd_start (s : string) :
  startsWithWhiteSpace s = false ->
  startsWithWhiteSpace (trimEnd s) = false.
Proof.
  destruct s as [|c r]; [reflexivity|].
  cbn [startsWithWhiteSpace trimEnd]. intros Hc.
  destruct (trimEnd r); [now rewrite Hc|exact Hc].
Qed.

Lemma trimStart_blank (s : string) :
  blank s = true -> trimStart s = EmptyString.
Proof.
  induction s as [|c r IH]; [reflexivity|]. cbn [blank trimStart].
  intros H. apply andb_true_iff in H. destruct H as [Hc Hr].
  rewrite Hc. now apply IH.
Qed.

(** X17. The category handed to the storage by the category update never
    begins or ends with white space. *)
Theorem stored_category_is_trimmed
  (updateTubeBenderCategory : number -> string -> option TubeBender.t)
  (idParam : string) (body : json) (id : number) (category : string) :
  In (UpdateTubeBenderCategory id category)
     (snd (updateCategory updateTubeBenderCategory idParam body)) ->
  startsWithWhiteSpace category = false
  /\ endsWithWhiteSpace category = false.
Proof.
  unfold updateCategory.
  destruct (isNaN (parseInt idParam)); [intros []|].
  assert (Htrim : forall text,
             startsWithWhiteSpace (trim text) = false
             /\ endsWithWhiteSpace (trim text) = false).
  { intros text. unfold trim. split.
    - apply trimEnd_start, trimStart_start.
    - apply trimEnd_end. }
  destruct body as [ | | | | |members]; try (intros []).
  destruct (get members "category") as [[ | | |[|c r]| | ]|];
    try (intros []).
  destruct (updateTubeBenderCategory _ _); cbn [snd];
    intros [[= _ <-]|[]]; apply Htrim.
Qed.

Lemma stored_category_is_trimmed_witness :
  startsWithWhiteSpace "heavy duty" = false
  /\ endsWithWhiteSpace "heavy duty" = false.
Proof.
  apply (stored_category_is_trimmed (fun _ _ => Some Sample.usa) "3"
           (JObject [("category", JString "  heavy duty ")])
           (Num (inject_Z 3)) "heavy duty").
  left. reflexivity.
Defined.

(** X18. A category made of white space only is not refused: the check for
    an empty category comes before the trimming, so the storage is asked to
    set the empty category. *)
Theorem blank_category_is_stored_empty
  (updateTubeBenderCategory : number -> string -> option TubeBender.t)
  (idParam : string) (members : list (string * json)) (category : string) :
  isNaN (parseInt idParam) = false ->
  get members "category" = Some (JString category) ->
  category <> EmptyString -> blank category = true ->
  snd (updateCategory updateTubeBenderCategory idParam (JObject members))
  = [UpdateTubeBenderCategory (parseInt idParam) EmptyString]
  /\ fst (updateCategory updateTubeBenderCategory idParam (JObject members))
     <> Failure 400 "Category is required and must be a string".
Proof.
  intros Hid Hget Hne Hblank. unfold updateCategory.
  rewrite Hid, Hget. destruct category as [|c r]; [congruence|].
  unfold trim. rewrite (trimStart_blank _ Hblank). cbn [trimEnd].
  destruct (updateTubeBenderCategory _ _); cbn [fst snd];
    split; solve [ reflexivity | discriminate ].
Qed.

Lemma blank_category_is_stored_empty_witness :
  snd (updateCategory (fun _ _ => Some Sample.usa) "3"
                      (JObject [("category", JString "   ")]))
  = [UpdateTubeBenderCategory (parseInt "3") EmptyString]
  /\ fst (updateCategory (fun _ _ => Some Sample.usa) "3"
                         (JObject [("category", JString "   ")]))
     <> Failure 400 "Category is required and must be a string".
Proof.
  apply (blank_category_is_stored_empty _ "3" _ "   ");
    solve [ reflexivity | discriminate ].
Defined.

(** X19. No request reaches the route registered for
    [/api/tube-benders/recommended]: the route [/api/tube-benders/:id] is
    registered before it and takes every path it could match.  A GET of
    [/api/tube-benders/recommended] is handled as a read by id and answered
    400 "Invalid tube bender ID". *)
Theorem recommended_route_is_shadowed :
  (forall method path,
      Router.dispatch method path <> Some Router.TubeBendersRecommended)
  /\ Router.dispatch Router.GET ["api"; "tube-benders"; "recommended"]
     = Some Router.TubeBenderById
  /\ forall getTubeBender,
       getTubeBenderById getTubeBender "recommended"
       = (Failure 400 "Invalid tube bender ID", []).
Proof.
  split; [|split; [reflexivity|intros; reflexivity]].
  intros method path H. unfold Router.dispatch, Router.routes in H.
  assert (Hcover :
            Router.pathMatches
              [Router.Lit "api"; Router.Lit "tube-benders";
               Router.Lit "recommended"] path = true ->
            Router.pathMatches
              [Router.Lit "api"; Router.Lit "tube-benders";
               Router.Param "id"] path = true).
  { destruct path as [|s1 [|s2 [|s3 [|s4 rest]]]];
      cbn [Router.pathMatches Router.segmentMatches];
      rewrite ?andb_true_iff; intros Hm;
      repeat match goal with
        | Hc : _ /\ _ |- _ => destruct Hc
        end;
      try discriminate.
    repeat split; try assumption.
    destruct s3; [discriminate|reflexivity]. }
  cbn [Router.firstMatch] in H.
  destruct method; cbn [Router.methodMatches andb] in H;
    repeat match type of H with
      | (if ?b then _ else _) = _ => destruct b eqn:?; [discriminate|]
      end;
    try discriminate;
    match type of H with
    | (if ?b then _ else _) = _ =>
        destruct b; [discriminate (Hcover eq_refl)|]
    end;
    repeat match type of H with
      | (if ?b then _ else _) = _ => destruct b eqn:?; [discriminate|]
      end;
    discriminate.
Qed.

End TubeBenderRoutes.

(* ================================================================== *)
(** * Properties of login and setup *)
(* ================================================================== *)

(** X20. A login is answered with a token only when the user name belongs
    to an account that is not locked and is active and the password
    verifies against its hash; the one write is then the time of the login.
 *)
Theorem token_only_for_valid_login
  (User : Type) (sanitizeUser : Auth.AdminUser -> User)
  (getAdminByUsername : string -> option Auth.AdminUser)
  (isAccountLocked : Auth.AdminUser -> bool)
  (verifyPassword : string -> string -> bool)
  (shouldLockAccount : Z -> bool) (getLockoutExpiry : string)
  (generateToken : Auth.AdminUser -> string)
  (now username password token : string) (user : User) :
  fst (Auth.login User sanitizeUser getAdminByUsername isAccountLocked
                  verifyPassword shouldLockAccount getLockoutExpiry
                  generateToken now username password)
  = Auth.LoginSuccessful token user ->
  exists account,
    getAdminByUsername username = Some account
    /\ isAccountLocked account = false
    /\ Auth.isActive account = true
    /\ verifyPassword password (Auth.passwordHash account) = true
    /\ token = generateToken account
    /\ snd (Auth.login User sanitizeUser getAdminByUsername isAccountLocked
                       verifyPassword shouldLockAccount getLockoutExpiry
                       generateToken now username password)
       = [Auth.GetAdminByUsername username;
          Auth.UpdateAdminLastLogin (Auth.id account) now].
Proof.
  unfold Auth.login.
  destruct (getAdminByUsername username) as [account|]; [|discriminate].
  destruct (isAccountLocked account) eqn:Hl; [discriminate|].
  destruct (Auth.isActive account) eqn:Ha; [|discriminate].
  destruct (verifyPassword password (Auth.passwordHash account)) eqn:Hv;
    [|discriminate].
  cbn. intros [= <- <-]. exists account. repeat split; auto.
Qed.

Lemma token_only_for_valid_login_witness :
  exists account,
    AuthSample.getAdminByUsername "ada" = Some account
    /\ AuthSample.verifyPassword "secret-one" (Auth.passwordHash account)
       = true.
Proof.
  destruct (token_only_for_valid_login
              string Auth.username AuthSample.getAdminByUsername
              (fun _ => false) AuthSample.verifyPassword
              (fun attempts => (5 <=? attempts)%Z) "2025-07-01T00:30:00.000Z"
              (fun user => "token-for-" ++ Auth.username user)
              "2025-07-02T08:00:00.000Z" "ada" "secret-one" "token-for-ada"
              "ada" eq_refl)
    as (account & Hget & _ & _ & Hv & _).
  exists account. split; assumption.
Defined.

(** X21. While an account is locked or disabled, the answer to a login does
    not depend on the password, is a refusal, and no write reaches the
    storage: the failed attempts are not counted. *)
Theorem locked_or_disabled_account_is_left_alone
  (User : Type) (sanitizeUser : Auth.AdminUser -> User)
  (getAdminByUsername : string -> option Auth.AdminUser)
  (isAccountLocked : Auth.AdminUser -> bool)
  (verifyPassword : string -> string -> bool)
  (shouldLockAccount : Z -> bool) (getLockoutExpiry : string)
  (generateToken : Auth.AdminUser -> string)
  (now username : string) (account : Auth.AdminUser) :
  getAdminByUsername username = Some account ->
  isAccountLocked account = true \/ Auth.isActive account = false ->
  forall password,
    Auth.login User sanitizeUser getAdminByUsername isAccountLocked
               verifyPassword shouldLockAccount getLockoutExpiry
               generateToken now username password
    = Auth.login User sanitizeUser getAdminByUsername isAccountLocked
                 verifyPassword shouldLockAccount getLockoutExpiry
                 generateToken now username EmptyString
    /\ snd (Auth.login User sanitizeUser getAdminByUsername isAccountLocked
                       verifyPassword shouldLockAccount getLockoutExpiry
                       generateToken now username password)
       = [Auth.GetAdminByUsername username]
    /\ exists status error,
         fst (Auth.login User sanitizeUser getAdminByUsername isAccountLocked
                         verifyPassword shouldLockAccount getLockoutExpiry
                         generateToken now username password)
         = Auth.Failure status error.
Proof.
  intros Hget Hstate password. unfold Auth.login. rewrite Hget.
  destruct (isAccountLocked account) eqn:Hl.
  - cbn. repeat split. do 2 eexists. reflexivity.
  - destruct Hstate as [Hs|Hs]; [discriminate|]. rewrite Hs. cbn.
    repeat split. do 2 eexists. reflexivity.
Qed.

Lemma locked_or_disabled_account_is_left_alone_witness :
  AuthSample.login true "2025-07-02T08:00:00.000Z" "ada" "secret-one"
  = AuthSample.login true "2025-07-02T08:00:00.000Z" "ada" EmptyString.
Proof.
  refine (proj1 (locked_or_disabled_account_is_left_alone
                   string Auth.username AuthSample.getAdminByUsername
                   (fun _ => true) AuthSample.verifyPassword
                   (fun attempts => (5 <=? attempts)%Z)
                   "2025-07-01T00:30:00.000Z"
                   (fun user => "token-for-" ++ Auth.username user)
                   "2025-07-02T08:00:00.000Z" "ada" AuthSample.ada
                   eq_refl (or_introl eq_refl) "secret-one")).
Defined.

(** X22. A wrong password for an existing account, as long as it does not
    trigger the lock, is answered exactly as an unknown user name is; what
    differs is the write that counts the failed attempt. *)
Theorem wrong_password_answers_as_unknown_user
  (User : Type) (sanitizeUser : Auth.AdminUser -> User)
  (getAdminByUsername : string -> option Auth.AdminUser)
  (isAccountLocked : Auth.AdminUser -> bool)
  (verifyPassword : string -> string -> bool)
  (shouldLockAccount : Z -> bool) (getLockoutExpiry : string)
  (generateToken : Auth.AdminUser -> string)
  (now known unknown password other : string) (account : Auth.AdminUser) :
  getAdminByUsername unknown = None ->
  getAdminByUsername known = Some account ->
  isAccountLocked account = false -> Auth.isActive account = true ->
  verifyPassword password (Auth.passwordHash account) = false ->
  shouldLockAccount (Auth.loginAttempts account + 1)%Z = false ->
  fst (Auth.login User sanitizeUser getAdminByUsername isAccountLocked
                  verifyPassword shouldLockAccount getLockoutExpiry
                  generateToken now known password)
  = fst (Auth.login User sanitizeUser getAdminByUsername isAccountLocked
                    verifyPassword shouldLockAccount getLockoutExpiry
                    generateToken now unknown other)
  /\ snd (Auth.login User sanitizeUser getAdminByUsername isAccountLocked
                     verifyPassword shouldLockAccount getLockoutExpiry
                     generateToken now known password)
     = [Auth.GetAdminByUsername known;
        Auth.UpdateAdminLoginAttempts (Auth.id account)
                                      (Auth.loginAttempts account + 1)%Z None].
Proof.
  intros Hu Hk Hl Ha Hv Hs. unfold Auth.login.
  rewrite Hu, Hk, Hl, Ha, Hv. cbn. rewrite Hs. split; reflexivity.
Qed.

Lemma wrong_password_answers_as_unknown_user_witness :
  fst (Auth.login string Auth.username AuthSample.getAdminByUsername
                  (fun _ => false) AuthSample.verifyPassword
                  (fun attempts => (9 <=? attempts)%Z)
                  "2025-07-01T00:30:00.000Z"
                  (fun user => "token-for-" ++ Auth.username user)
                  "2025-07-02T08:00:00.000Z" "ada" "guess")
  = fst (Auth.login string Auth.username AuthSample.getAdminByUsername
                    (fun _ => false) AuthSample.verifyPassword
                    (fun attempts => (9 <=? attempts)%Z)
                    "2025-07-01T00:30:00.000Z"
                    (fun user => "token-for-" ++ Auth.username user)
                    "2025-07-02T08:00:00.000Z" "bob" "guess").
Proof.
  refine (proj1 (wrong_password_answers_as_unknown_user
                   string Auth.username AuthSample.getAdminByUsername
                   (fun _ => false) AuthSample.verifyPassword
                   (fun attempts => (9 <=? attempts)%Z)
                   "2025-07-01T00:30:00.000Z"
                   (fun user => "token-for-" ++ Auth.username user)
                   "2025-07-02T08:00:00.000Z" "ada" "bob" "guess" "guess"
                   AuthSample.ada eq_refl eq_refl eq_refl eq_refl eq_refl
                   eq_refl)).
Defined.



(* ================================================================== *)
(** * The badge of the fallback entry *)
(* ================================================================== *)

Section FallbackBadge.

Import JS Scoring.
Local Open Scope Q_scope.

(** An unreadable rating never gets the highlighted badge. *)
Lemma fallback_badge_NaN (product : TubeBender.t)
  (item : ScoreBreakdownItem) :
  parseFloat (TubeBender.rating product) = NaN ->
  In item (scoreBreakdown (fallback product)) ->
  Badge.variant item = "secondary"%string.
Proof.
  intros Hr [<-|[]]. unfold Badge.variant.
  cbn [points maxPoints]. rewrite Hr. reflexivity.
Qed.



End FallbackBadge.
